(** * Feature extraction for negation-cue detection

    A shallow embedding of [code/feature_extraction.py]: the POS categoriser
    [generate_pos_category], the neighbour extractor
    [extract_previous_and_next], the affix analyser
    [get_affixal_and_base_features] and the table assembly of
    [write_features], followed by the properties established about them.

    Conventions.  A Python [str] is a [string]; each character stands for one
    code point below 256.  A Python [set] that the code iterates over
    ([neg_suffix], [neg_prefix]) is the list of its members in iteration
    order; the vocabulary, which is only tested for membership, is a [gset].
    A cell that holds either an integer or a string ([has_affix],
    [base_is_word]) is a [value].  An [IndexError] is [None]. *)

From stdpp Require Import base option list strings gmap.

(** ** Python string primitives *)

Module Py.

(** [len(s)] *)
Definition len (s : string) : nat := String.length s.

(** [s.startswith(p)] *)
Definition startswith (s p : string) : bool := String.prefix p s.

(** [s.endswith(t)] *)
Definition endswith (s t : string) : bool :=
  (len t <=? len s)%nat
  && String.eqb (String.substring (len s - len t) (len t) s) t.

(** [s.replace(old, new, count)] for a non-empty [old]: one left-to-right
    scan over non-overlapping occurrences.  [skip] is the number of
    characters of the current occurrence still to drop, [count] the number
    of replacements still allowed. *)
Fixpoint replace_scan (old new : string) (skip count : nat) (s : string)
  : string :=
  match s with
  | EmptyString => EmptyString
  | String c rest =>
      match skip with
      | S k => replace_scan old new k count rest
      | O =>
          match count with
          | S n =>
              if String.prefix old s
              then new +:+ replace_scan old new (len old - 1) n rest
              else String c (replace_scan old new 0 count rest)
          | O => String c (replace_scan old new 0 0 rest)
          end
      end
  end.

(** [s.replace("", new, count)]: [new] goes in front of every character
    and at the end, at most [count] times. *)
Fixpoint replace_empty (new : string) (count : nat) (s : string) : string :=
  match count with
  | O => s
  | S n =>
      match s with
      | EmptyString => new
      | String c rest => new +:+ String c (replace_empty new n rest)
      end
  end.

(** [s.replace(old, new)] when [count] is [None], [s.replace(old, new, n)]
    when it is [Some n].  Without a limit at most [len s + 1] replacements
    can take place. *)
Definition replace (s old new : string) (count : option nat) : string :=
  let n := default (S (len s)) count in
  match old with
  | EmptyString => replace_empty new n s
  | String _ _ => replace_scan old new 0 n s
  end.

(** [string.punctuation] *)
Definition punctuation : string :=
  "!" +:+ String (Ascii.ascii_of_nat 34) "#$%&'()*+,-./:;<=>?@[\]^_`{|}~".

(** [c in s] for a single character [c] *)
Fixpoint char_in (c : Ascii.ascii) (s : string) : bool :=
  match s with
  | EmptyString => false
  | String d rest => Ascii.eqb c d || char_in c rest
  end.

(** [s.lower()] on code points below 256: the capitals A-Z, and the Latin-1
    capitals 192-222 apart from the multiplication sign 215, move up by 32. *)
Definition lower_char (c : Ascii.ascii) : Ascii.ascii :=
  let n := Ascii.nat_of_ascii c in
  if ((65 <=? n) && (n <=? 90)
      || (192 <=? n) && (n <=? 222) && negb (n =? 215))%nat
  then Ascii.ascii_of_nat (n + 32)
  else c.

Fixpoint lower (s : string) : string :=
  match s with
  | EmptyString => EmptyString
  | String c rest => String (lower_char c) (lower rest)
  end.

End Py.

(** ** Cells *)

(** A cell of a derived column: [0], [1] or a string. *)
Inductive value : Type :=
| VInt (z : Z)
| VStr (s : string).

Global Instance value_eq_dec : EqDecision value.
Proof. solve_decision. Defined.

(** Python truthiness of a cell: [0] and [''] are false. *)
Definition truthy (v : value) : bool :=
  match v with
  | VInt z => negb (z =? 0)%Z
  | VStr s => negb (String.eqb s "")
  end.

(** ** POS categoriser *)

Definition adj : list string := ["JJ"; "JJR"; "JJS"].
Definition nn : list string := ["NN"; "NNS"; "NNP"; "NNPS"].
Definition adv : list string := ["RB"; "RBR"; "RBS"].
Definition vb : list string := ["VB"; "VBD"; "VBG"; "VBN"; "VBP"; "VBZ"].
Definition pro : list string := ["PRP"; "PRP$"].

(** The body of the loop of [generate_pos_category]: the category appended
    for one tag. *)
Definition pos_category_of (pos_tag : string) : string :=
  match pos_tag with
  | EmptyString => ""
  | String c0 _ =>
      if bool_decide (pos_tag ∈ adj) then "ADJ"
      else if bool_decide (pos_tag ∈ nn) then "NN"
      else if bool_decide (pos_tag ∈ adv) then "ADV"
      else if bool_decide (pos_tag ∈ pro) then "PRO"
      else if bool_decide (pos_tag ∈ vb) then "VERB"
      else if Py.char_in c0 Py.punctuation then "PUNCT"
      else "OTH"
  end.

(** [generate_pos_category]: [pos_list] starts empty and receives one
    category per tag, in order. *)
Definition generate_pos_category (pos_tags : list string) : list string :=
  foldl (fun pos_list pos_tag => pos_list ++ [pos_category_of pos_tag])
        [] pos_tags.

(** ** Python list indexing *)

(** The position an index [i] denotes in a list of [n] items: a negative
    index counts from the end, anything outside the list is an [IndexError]. *)
Definition norm_index (n : nat) (i : Z) : option nat :=
  let j := if (i <? 0)%Z then (i + Z.of_nat n)%Z else i in
  if ((0 <=? j) && (j <? Z.of_nat n))%Z then Some (Z.to_nat j) else None.

(** [l[i]] *)
Definition getitem {A} (l : list A) (i : Z) : option A :=
  j ← norm_index (length l) i; l !! j.

(** [l[i] = x] *)
Definition setitem {A} (l : list A) (i : Z) (x : A) : option (list A) :=
  j ← norm_index (length l) i; Some (<[j:=x]> l).

(** [for _ in range(n): body], the loop variable unused. *)
Fixpoint for_range {S} (n : nat) (body : S → option S) (st : S) : option S :=
  match n with
  | O => Some st
  | S k => st' ← body st; for_range k body st'
  end.

(** ** Neighbour extractor *)

(** The local variables of [extract_previous_and_next] that live across
    iterations. *)
Record scan_state : Type := ScanState {
  position_index : Z;
  prev_tokens : list string;
  next_tokens : list string;
  bos_previous : bool;
  eos_next : bool
}.

Definition scan_init : scan_state :=
  {| position_index := 0; prev_tokens := []; next_tokens := [];
     bos_previous := false; eos_next := false |}.

(** The "previous token" half of the loop body: the token to append, the
    possibly patched [prev_tokens], and the flag [bos_previous]. *)
Definition previous_part (elements : list string) (st : scan_state)
  : option (string * list string * bool) :=
  let prev_index := (position_index st - 1)%Z in
  if (prev_index <? 0)%Z then
    Some ("bos", prev_tokens st, bos_previous st)
  else
    e ← getitem elements prev_index;
    let '(previous_token, bos) :=
      if String.eqb e "" then ("bos", true) else (e, bos_previous st) in
    if bos then
      patched ← setitem (prev_tokens st) (position_index st - 1)%Z "";
      Some (previous_token, patched, false)
    else Some (previous_token, prev_tokens st, bos).

(** The "next token" half of the loop body: the token to append and the
    flag [eos_next]. *)
Definition next_part (elements : list string) (st : scan_state)
  : option (string * bool) :=
  let next_index := (position_index st + 1)%Z in
  if eos_next st then Some ("", false)
  else if (next_index <? Z.of_nat (length elements))%Z then
    e ← getitem elements next_index;
    if String.eqb e "" then Some ("eos", true) else Some (e, eos_next st)
  else Some ("eos", eos_next st).

(** One iteration of the loop. *)
Definition scan_step (elements : list string) (st : scan_state)
  : option scan_state :=
  '(previous_token, patched, bos) ← previous_part elements st;
  '(next_token, eos) ← next_part elements st;
  Some {| position_index := position_index st + 1;
          prev_tokens := patched ++ [previous_token];
          next_tokens := next_tokens st ++ [next_token];
          bos_previous := bos;
          eos_next := eos |}.

Definition extract_previous_and_next (elements : list string)
  : option (list string * list string) :=
  st ← for_range (length elements) (scan_step elements) scan_init;
  Some (prev_tokens st, next_tokens st).

(** ** Affix analyser *)

(** The four per-lemma variables of [get_affixal_and_base_features]. *)
Record affix_features : Type := AffixFeatures {
  has_affix_val : value;
  affix_val : string;
  base_is_word_val : value;
  base_val : string
}.

Global Instance affix_features_eq_dec : EqDecision affix_features.
Proof. solve_decision. Defined.

(** The assignments made when a candidate base is long enough. *)
Definition commit (affix base_lemma : string) (vocab : gset string)
                  (st : affix_features) : affix_features :=
  let st := {| has_affix_val := VInt 1; affix_val := affix;
               base_is_word_val := base_is_word_val st;
               base_val := base_val st |} in
  if bool_decide (base_lemma ∈ vocab)
  then {| has_affix_val := has_affix_val st; affix_val := affix_val st;
          base_is_word_val := VInt 1; base_val := base_lemma |}
  else st.

(** [for suffix in neg_suffix: ...]; returning without the recursive call is
    the [break]. *)
Fixpoint suffix_loop (lemma : string) (vocab : gset string)
         (neg_suffix : list string) (st : affix_features) : affix_features :=
  match neg_suffix with
  | [] => st
  | suffix :: rest =>
      if Py.endswith lemma suffix then
        let base_lemma := Py.replace lemma suffix "" None in
        if (2 <? Py.len base_lemma)%nat
        then commit suffix base_lemma vocab st
        else suffix_loop lemma vocab rest st
      else suffix_loop lemma vocab rest st
  end.

(** [for prefix in neg_prefix: ...] *)
Fixpoint prefix_loop (lemma : string) (vocab : gset string)
         (neg_prefix : list string) (st : affix_features) : affix_features :=
  match neg_prefix with
  | [] => st
  | prefix :: rest =>
      if Py.startswith lemma prefix then
        let base_lemma := Py.replace lemma prefix "" (Some 1) in
        if (3 <? Py.len base_lemma)%nat
        then commit prefix base_lemma vocab st
        else prefix_loop lemma vocab rest st
      else prefix_loop lemma vocab rest st
  end.

(** The body of the loop over [lemmas]: the four values appended for one
    lemma. *)
Definition affix_features_of (lemma : string) (neg_prefix neg_suffix : list string)
           (vocab : gset string) : affix_features :=
  match lemma with
  | EmptyString =>
      {| has_affix_val := VStr ""; affix_val := "";
         base_is_word_val := VStr ""; base_val := "" |}
  | String _ _ =>
      let st := {| has_affix_val := VInt 0; affix_val := "";
                   base_is_word_val := VInt 0; base_val := "" |} in
      let st := suffix_loop lemma vocab neg_suffix st in
      if negb (truthy (has_affix_val st))
      then prefix_loop lemma vocab neg_prefix st
      else st
  end.

(** [get_affixal_and_base_features]: the four result lists, each extended by
    one value per lemma. *)
Definition get_affixal_and_base_features (lemmas : list string)
           (neg_prefix neg_suffix : list string) (vocab : gset string)
  : list value * list string * list value * list string :=
  foldl (fun '(has_affix, affix, base_is_word, base) lemma =>
           let f := affix_features_of lemma neg_prefix neg_suffix vocab in
           (has_affix ++ [has_affix_val f], affix ++ [affix_val f],
            base_is_word ++ [base_is_word_val f], base ++ [base_val f]))
        ([], [], [], []) lemmas.

(** ** Feature table *)

(** A row of the table read from the input file, columns 0 to 6. *)
Record input_row : Type := InputRow {
  in_book : string;
  in_sent_num : string;
  in_token_num : string;
  in_token : string;
  in_lemma : string;
  in_pos_tag : string;
  in_label : string
}.

(** A row of [features_df], fields in the order of [feature_names]. *)
Record feature_row : Type := FeatureRow {
  book : string;
  sent_num : string;
  token_num : string;
  token : string;
  lemma : string;
  pos_tag : string;
  pos_category : string;
  prev_token : string;
  next_token : string;
  prev_lemma : string;
  next_lemma : string;
  has_affix : value;
  affix : string;
  base_is_word : value;
  base : string;
  gold_label : string
}.

(** The columns of [features_dict], in the order of [feature_names]. *)
Record features_dict : Type := FeaturesDict {
  d_book : list string;
  d_sent_num : list string;
  d_token_num : list string;
  d_token : list string;
  d_lemma : list string;
  d_pos_tag : list string;
  d_pos_category : list string;
  d_prev_token : list string;
  d_next_token : list string;
  d_prev_lemma : list string;
  d_next_lemma : list string;
  d_has_affix : list value;
  d_affix : list string;
  d_base_is_word : list value;
  d_base : list string;
  d_gold_label : list string
}.

(** Row [i] of the frame built from the columns. *)
Definition frame_row (d : features_dict) (i : nat) : feature_row :=
  {| book := nth i (d_book d) "";
     sent_num := nth i (d_sent_num d) "";
     token_num := nth i (d_token_num d) "";
     token := nth i (d_token d) "";
     lemma := nth i (d_lemma d) "";
     pos_tag := nth i (d_pos_tag d) "";
     pos_category := nth i (d_pos_category d) "";
     prev_token := nth i (d_prev_token d) "";
     next_token := nth i (d_next_token d) "";
     prev_lemma := nth i (d_prev_lemma d) "";
     next_lemma := nth i (d_next_lemma d) "";
     has_affix := nth i (d_has_affix d) (VStr "");
     affix := nth i (d_affix d) "";
     base_is_word := nth i (d_base_is_word d) (VStr "");
     base := nth i (d_base d) "";
     gold_label := nth i (d_gold_label d) "" |}.

(** [pd.DataFrame(features_dict, columns=feature_names)]: the index is that
    of the columns taken from the input frame; a list column of another
    length is a [ValueError]. *)
Definition data_frame (d : features_dict) : option (list feature_row) :=
  let n := length (d_book d) in
  if forallb (λ m, m =? n)%nat
       [length (d_sent_num d); length (d_token_num d); length (d_token d);
        length (d_lemma d); length (d_pos_tag d);
        length (d_pos_category d);
        length (d_prev_token d); length (d_next_token d);
        length (d_prev_lemma d); length (d_next_lemma d);
        length (d_has_affix d); length (d_affix d);
        length (d_base_is_word d); length (d_base d);
        length (d_gold_label d)]
  then Some (frame_row d <$> seq 0 n)
  else None.

(** [write_features], from the frame parsed out of the input file to the
    frame handed to [to_csv]. *)
Definition write_features (input_data : list input_row)
           (neg_prefix neg_suffix : list string) (vocab : gset string)
  : option (list feature_row) :=
  let books := in_book <$> input_data in
  let sent_num := in_sent_num <$> input_data in
  let token_num := in_token_num <$> input_data in
  let tokens := Py.lower <$> (in_token <$> input_data) in
  let lemmas := Py.lower <$> (in_lemma <$> input_data) in
  let pos_tags := in_pos_tag <$> input_data in
  let labels := in_label <$> input_data in
  '(prev_tokens, next_tokens) ← extract_previous_and_next tokens;
  let pos_category := generate_pos_category pos_tags in
  '(prev_lemmas, next_lemmas) ← extract_previous_and_next lemmas;
  let '(has_affix, affix, base_is_word, base) :=
    get_affixal_and_base_features lemmas neg_prefix neg_suffix vocab in
  features_df ←
    data_frame
      {| d_book := books; d_sent_num := sent_num; d_token_num := token_num;
         d_token := tokens; d_lemma := lemmas; d_pos_tag := pos_tags;
         d_pos_category := pos_category;
         d_prev_token := prev_tokens; d_next_token := next_tokens;
         d_prev_lemma := prev_lemmas; d_next_lemma := next_lemmas;
         d_has_affix := has_affix; d_affix := affix;
         d_base_is_word := base_is_word; d_base := base;
         d_gold_label := labels |};
  Some (filter (λ r, book r ≠ "") features_df).

(** The sets built in [main], in one iteration order. *)
Definition neg_prefix_main : list string :=
  ["dis"; "im"; "in"; "ir"; "un"; "non"].
Definition neg_suffix_main : list string := ["less"; "lessness"; "lessly"].

(** ** Vocabulary used in the statements *)

(** The values every non-empty lemma starts from. *)
Definition no_affix : affix_features :=
  {| has_affix_val := VInt 0; affix_val := "";
     base_is_word_val := VInt 0; base_val := "" |}.

(** The two tests a suffix has to pass to be committed by [suffix_loop]. *)
Definition qualifies_suffix (lemma suffix : string) : bool :=
  Py.endswith lemma suffix
  && (2 <? Py.len (Py.replace lemma suffix "" None))%nat.

(** The two tests a prefix has to pass to be committed by [prefix_loop]. *)
Definition qualifies_prefix (lemma prefix : string) : bool :=
  Py.startswith lemma prefix
  && (3 <? Py.len (Py.replace lemma prefix "" (Some 1)))%nat.

(** The stem in the words of the specification, not taken from the code:
    the lemma without its last [len suffix] characters, that is, with the
    one trailing occurrence of the suffix removed. *)
Definition spec_trailing_stem (lemma suffix : string) : string :=
  String.substring 0 (Py.len lemma - Py.len suffix) lemma.


(** The reading of the prefix pass under which the scan ends at the first
    prefix the lemma starts with: what comes later in the set has no
    influence on the result. *)
Definition first_startswith_match_only (lemma : string) (vocab : gset string)
           (before : list string) (prefix : string) (later : list string)
  : Prop :=
  Forall (λ x, Py.startswith lemma x = false) before →
  Py.startswith lemma prefix = true →
  prefix_loop lemma vocab (before ++ prefix :: later) no_affix
  = prefix_loop lemma vocab (before ++ [prefix]) no_affix.

(** The number of rows of the input frame whose book field is empty. *)
Definition blank_rows (input_data : list input_row) : nat :=
  length (filter (λ r, in_book r = "") input_data).

(** An input row with its token and its lemma in lower case. *)
Definition lowercased (r : input_row) : input_row :=
  {| in_book := in_book r; in_sent_num := in_sent_num r;
     in_token_num := in_token_num r;
     in_token := Py.lower (in_token r); in_lemma := Py.lower (in_lemma r);
     in_pos_tag := in_pos_tag r; in_label := in_label r |}.

(** Row [i] of [features_df] written out from the input row [r] at that
    position, the four neighbour columns computed by
    [extract_previous_and_next] and the sets given to the affix analyser. *)
Definition feature_row_at
           (prev_tokens next_tokens prev_lemmas next_lemmas : list string)
           (neg_prefix neg_suffix : list string) (vocab : gset string)
           (i : nat) (r : input_row) : feature_row :=
  let f :=
    affix_features_of (Py.lower (in_lemma r)) neg_prefix neg_suffix vocab in
  {| book := in_book r;
     sent_num := in_sent_num r;
     token_num := in_token_num r;
     token := Py.lower (in_token r);
     lemma := Py.lower (in_lemma r);
     pos_tag := in_pos_tag r;
     pos_category := pos_category_of (in_pos_tag r);
     prev_token := nth i prev_tokens "";
     next_token := nth i next_tokens "";
     prev_lemma := nth i prev_lemmas "";
     next_lemma := nth i next_lemmas "";
     has_affix := has_affix_val f;
     affix := affix_val f;
     base_is_word := base_is_word_val f;
     base := base_val f;
     gold_label := in_label r |}.

(** After [k] iterations the position is [k], both output lists hold [k]
    items and the flag [bos_previous] is down again. *)
Definition scan_inv (k : nat) (st : scan_state) : Prop :=
  position_index st = Z.of_nat k
  ∧ length (prev_tokens st) = k
  ∧ length (next_tokens st) = k
  ∧ bos_previous st = false.

(** The previous value a row gets when it is processed: "bos" for the first
    row and after an empty element, the preceding element otherwise. *)
Definition raw_previous (elements : list string) (j : nat) : string :=
  match j with
  | O => "bos"
  | S i =>
      match elements !! i with
      | Some e => if String.eqb e "" then "bos" else e
      | None => "bos"
      end
  end.

(** The previous value of row [j] once [k] rows have been processed: the
    value of an empty row is cleared as soon as the row after it has been
    processed. *)
Definition previous_value (elements : list string) (k j : nat) : string :=
  if (S j <? k)%nat && bool_decide (elements !! j = Some "")
  then ""
  else raw_previous elements j.

(** The flag [eos_next] at the start of iteration [j]: it is raised by the
    row before an empty element, unless that row found it raised itself. *)
Fixpoint eos_pending (elements : list string) (j : nat) : bool :=
  match j with
  | O => false
  | S i =>
      negb (eos_pending elements i)
      && bool_decide (elements !! S i = Some "")
  end.

(** The next value row [j] gets: empty when the flag is up, otherwise "eos"
    at the end and before an empty element, and the following element in
    all other cases. *)
Definition next_value (elements : list string) (j : nat) : string :=
  if eos_pending elements j then ""
  else match elements !! S j with
       | Some e => if String.eqb e "" then "eos" else e
       | None => "eos"
       end.

(** Everything that holds after [k] iterations. *)
Definition scan_done (elements : list string) (k : nat) (st : scan_state)
  : Prop :=
  scan_inv k st
  ∧ eos_next st = eos_pending elements k
  ∧ (∀ j, j < k → prev_tokens st !! j = Some (previous_value elements k j))
  ∧ (∀ j, j < k → next_tokens st !! j = Some (next_value elements j)).

(** [sub in s] for strings: [sub] occurs somewhere in [s]. *)
Fixpoint contains (s sub : string) : bool :=
  String.prefix sub s
  || match s with
     | EmptyString => false
     | String _ rest => contains rest sub
     end.

(** The first statement of [write_features]: the path of the output file. *)
Definition output_file (input_file : string) : string :=
  Py.replace input_file "_preprocessed.txt" "_features.txt" None.

(** [s[:-1]]: the string without its last character. *)
Definition but_last (s : string) : string :=
  String.substring 0 (Py.len s - 1) s.

(** Suffix priority as worded: whenever the lemma ends with a suffix of the
    set and the lemma without that ending is longer than 2, has_affix is 1,
    the affix is that suffix, and the prefix set has no influence on the
    result. *)
Definition commits_that_suffix (lemma : string)
           (neg_prefix neg_suffix : list string) (vocab : gset string)
           (suffix : string) : Prop :=
  suffix ∈ neg_suffix →
  Py.endswith lemma suffix = true →
  2 < Py.len (spec_trailing_stem lemma suffix) →
  has_affix_val (affix_features_of lemma neg_prefix neg_suffix vocab) = VInt 1
  ∧ affix_val (affix_features_of lemma neg_prefix neg_suffix vocab) = suffix
  ∧ ∀ other_prefixes,
      affix_features_of lemma other_prefixes neg_suffix vocab
      = affix_features_of lemma neg_prefix neg_suffix vocab.

(** * Properties *)

(** ** Auxiliary facts *)

Lemma foldl_snoc_map {A B} (f : A → B) (l : list A) (acc : list B) :
  foldl (λ acc x, acc ++ [f x]) acc l = acc ++ (f <$> l).
Proof.
  revert acc. induction l as [|x l IH]; intros acc; simpl.
  - by rewrite app_nil_r.
  - rewrite IH. by rewrite <- app_assoc.
Qed.

Lemma generate_pos_category_map (pos_tags : list string) :
  generate_pos_category pos_tags = pos_category_of <$> pos_tags.
Proof. unfold generate_pos_category. by rewrite foldl_snoc_map. Qed.

Lemma norm_index_nat (n k : nat) :
  k < n → norm_index n (Z.of_nat k) = Some k.
Proof.
  intros Hk. unfold norm_index.
  destruct (Z.ltb_spec (Z.of_nat k) 0) as [?|_]; [lia|].
  destruct (Z.leb_spec 0 (Z.of_nat k)) as [_|?]; [|lia].
  destruct (Z.ltb_spec (Z.of_nat k) (Z.of_nat n)) as [_|?]; [|lia].
  simpl. by rewrite Nat2Z.id.
Qed.

Lemma getitem_nat {A} (l : list A) (k : nat) :
  k < length l → getitem l (Z.of_nat k) = l !! k.
Proof. intros Hk. unfold getitem. by rewrite norm_index_nat. Qed.

Lemma setitem_nat {A} (l : list A) (k : nat) (x : A) :
  k < length l → setitem l (Z.of_nat k) x = Some (<[k:=x]> l).
Proof. intros Hk. unfold setitem. by rewrite norm_index_nat. Qed.

Lemma for_range_snoc {S} (n : nat) (body : S → option S) (st : S) :
  for_range (Datatypes.S n) body st = for_range n body st ≫= body.
Proof.
  revert st. induction n as [|n IH]; intros st.
  - simpl. by destruct (body st).
  - change (for_range (Datatypes.S (Datatypes.S n)) body st)
      with (body st ≫= for_range (Datatypes.S n) body).
    destruct (body st) as [st'|] eqn:Hst; simpl; [|by rewrite Hst].
    rewrite Hst. simpl. apply IH.
Qed.

(** ** The loop invariant of the neighbour extractor *)

Lemma scan_inv_init : scan_inv 0 scan_init.
Proof. by repeat split. Qed.

Lemma previous_part_first (elements : list string) (st : scan_state) :
  scan_inv 0 st →
  previous_part elements st = Some ("bos", prev_tokens st, false).
Proof.
  intros (Hpos & _ & _ & Hbos). unfold previous_part.
  rewrite Hpos, Hbos. reflexivity.
Qed.

Lemma previous_part_literal (elements : list string) (j : nat)
      (st : scan_state) (e : string) :
  scan_inv (S j) st → elements !! j = Some e → e ≠ "" →
  previous_part elements st = Some (e, prev_tokens st, false).
Proof.
  intros (Hpos & _ & _ & Hbos) He Hne. unfold previous_part.
  rewrite Hpos, Hbos.
  replace (Z.of_nat (S j) - 1)%Z with (Z.of_nat j) by lia.
  destruct (Z.ltb_spec (Z.of_nat j) 0) as [?|_]; [lia|].
  rewrite getitem_nat by (by eapply lookup_lt_Some). rewrite He. simpl.
  destruct (String.eqb_spec e "") as [?|_]; [done|]. reflexivity.
Qed.

Lemma previous_part_blank (elements : list string) (j : nat)
      (st : scan_state) :
  scan_inv (S j) st → elements !! j = Some "" →
  previous_part elements st = Some ("bos", <[j:=""]> (prev_tokens st), false).
Proof.
  intros (Hpos & Hlen & _ & _) He. unfold previous_part.
  rewrite Hpos.
  replace (Z.of_nat (S j) - 1)%Z with (Z.of_nat j) by lia.
  destruct (Z.ltb_spec (Z.of_nat j) 0) as [?|_]; [lia|].
  rewrite getitem_nat by (by eapply lookup_lt_Some). rewrite He. simpl.
  rewrite setitem_nat by lia. reflexivity.
Qed.

Lemma next_part_total (elements : list string) (k : nat) (st : scan_state) :
  position_index st = Z.of_nat k →
  ∃ t b, next_part elements st = Some (t, b).
Proof.
  intros Hpos. unfold next_part. rewrite Hpos.
  destruct (eos_next st); [by eauto|].
  replace (Z.of_nat k + 1)%Z with (Z.of_nat (S k)) by lia.
  destruct (Z.ltb_spec (Z.of_nat (S k)) (Z.of_nat (length elements)))
    as [Hlt|_]; [|by eauto].
  rewrite getitem_nat by lia.
  destruct (lookup_lt_is_Some_2 elements (S k)) as [e ->]; [lia|]. simpl.
  destruct (String.eqb e ""); eauto.
Qed.

(** The previous part never fails inside the list, leaves the length of
    [prev_tokens] alone and hands back a lowered flag. *)
Lemma previous_part_total (elements : list string) (k : nat)
      (st : scan_state) :
  scan_inv k st → k ≤ length elements →
  ∃ t patched, previous_part elements st = Some (t, patched, false)
               ∧ length patched = k.
Proof.
  intros Hinv Hk. destruct k as [|j].
  - exists "bos", (prev_tokens st). split; [by apply previous_part_first|].
    by destruct Hinv as (_ & ? & _).
  - destruct (lookup_lt_is_Some_2 elements j) as [e He]; [lia|].
    destruct (decide (e = "")) as [->|Hne].
    + exists "bos", (<[j:=""]> (prev_tokens st)).
      split; [by apply previous_part_blank|].
      rewrite length_insert. by destruct Hinv as (_ & ? & _).
    + exists e, (prev_tokens st).
      split; [by apply (previous_part_literal _ j)|].
      by destruct Hinv as (_ & ? & _).
Qed.

Lemma scan_step_inv (elements : list string) (k : nat) (st : scan_state) :
  scan_inv k st → k ≤ length elements →
  ∃ st', scan_step elements st = Some st' ∧ scan_inv (S k) st'.
Proof.
  intros Hinv Hk.
  destruct (previous_part_total elements k st Hinv Hk)
    as (t & patched & Hprev & Hlen).
  destruct Hinv as (Hpos & _ & Hnext & _).
  destruct (next_part_total elements k st Hpos) as (t' & b & Hnxt).
  unfold scan_step. rewrite Hprev, Hnxt. simpl.
  eexists. split; [reflexivity|].
  repeat split; simpl.
  - lia.
  - rewrite length_app. simpl. lia.
  - rewrite length_app. simpl. lia.
Qed.

Lemma for_range_scan_inv (elements : list string) (n k : nat)
      (st : scan_state) :
  scan_inv k st → k + n ≤ length elements →
  ∃ st', for_range n (scan_step elements) st = Some st'
         ∧ scan_inv (k + n) st'.
Proof.
  revert k st. induction n as [|n IH]; intros k st Hinv Hk.
  - exists st. rewrite Nat.add_0_r. by split.
  - destruct (scan_step_inv elements k st Hinv) as (st1 & Hstep & Hinv1);
      [lia|].
    destruct (IH (S k) st1 Hinv1) as (st2 & Hrun & Hinv2); [lia|].
    exists st2. simpl. rewrite Hstep. simpl.
    split; [done|]. by replace (k + S n) with (S k + n) by lia.
Qed.

Lemma scan_step_appends (elements : list string) (k : nat)
      (st : scan_state) (t : string) (patched : list string) :
  scan_inv k st →
  previous_part elements st = Some (t, patched, false) →
  ∃ st', scan_step elements st = Some st'
         ∧ prev_tokens st' = patched ++ [t].
Proof.
  intros (Hpos & _) Hprev.
  destruct (next_part_total elements k st Hpos) as (t' & b & Hnxt).
  unfold scan_step. rewrite Hprev, Hnxt. simpl. eauto.
Qed.

(** The contents of [prev_tokens] after [k] iterations. *)
Lemma scan_step_previous_value (elements : list string) (k : nat)
      (st : scan_state) :
  scan_inv k st → k ≤ length elements →
  (∀ j, j < k → prev_tokens st !! j = Some (previous_value elements k j)) →
  ∃ st', scan_step elements st = Some st'
         ∧ ∀ j, j < S k →
             prev_tokens st' !! j = Some (previous_value elements (S k) j).
Proof.
  intros Hinv Hk Hval.
  assert (Hlen : length (prev_tokens st) = k) by (by destruct Hinv as (_ & ? & _)).
  destruct k as [|i].
  - destruct (scan_step_appends elements 0 st "bos" (prev_tokens st) Hinv)
      as (st' & Hstep & Hprev); [by apply previous_part_first|].
    exists st'. split; [done|]. intros j Hj.
    assert (j = 0) as -> by lia.
    rewrite Hprev. apply nil_length_inv in Hlen. by rewrite Hlen.
  - destruct (lookup_lt_is_Some_2 elements i) as [e He]; [lia|].
    destruct (decide (e = "")) as [->|Hne].
    + destruct (scan_step_appends elements (S i) st "bos"
                  (<[i:=""]> (prev_tokens st)) Hinv)
        as (st' & Hstep & Hprev); [by apply previous_part_blank|].
      exists st'. split; [done|]. intros j Hj. rewrite Hprev.
      unfold previous_value.
      destruct (decide (j = S i)) as [->|Hji].
      * rewrite lookup_app_r by (rewrite length_insert; lia).
        rewrite length_insert, Hlen, Nat.sub_diag.
        rewrite Nat.ltb_irrefl. simpl. by rewrite He.
      * rewrite lookup_app_l by (rewrite length_insert; lia).
        destruct (decide (j = i)) as [->|Hji'].
        -- rewrite list_lookup_insert_eq by lia.
           rewrite (proj2 (Nat.ltb_lt _ _)) by lia.
           by rewrite bool_decide_eq_true_2.
        -- rewrite list_lookup_insert_ne by done.
           rewrite Hval by lia. unfold previous_value.
           by rewrite !(proj2 (Nat.ltb_lt (S j) _)) by lia.
    + destruct (scan_step_appends elements (S i) st e (prev_tokens st) Hinv)
        as (st' & Hstep & Hprev); [by apply (previous_part_literal _ i)|].
      exists st'. split; [done|]. intros j Hj. rewrite Hprev.
      unfold previous_value.
      destruct (decide (j = S i)) as [->|Hji].
      * rewrite lookup_app_r by lia.
        rewrite Hlen, Nat.sub_diag, Nat.ltb_irrefl. simpl. rewrite He.
        by destruct (String.eqb_spec e "").
      * rewrite lookup_app_l by lia.
        rewrite Hval by lia. unfold previous_value.
        destruct (decide (j = i)) as [->|Hji'].
        -- rewrite Nat.ltb_irrefl. simpl.
           rewrite bool_decide_eq_false_2 by congruence.
           by rewrite andb_false_r.
        -- by rewrite !(proj2 (Nat.ltb_lt (S j) _)) by lia.
Qed.

Lemma for_range_previous_value (elements : list string) (n k : nat)
      (st : scan_state) :
  scan_inv k st → k + n ≤ length elements →
  (∀ j, j < k → prev_tokens st !! j = Some (previous_value elements k j)) →
  ∃ st', for_range n (scan_step elements) st = Some st'
         ∧ ∀ j, j < k + n →
             prev_tokens st' !! j
             = Some (previous_value elements (k + n) j).
Proof.
  revert k st. induction n as [|n IH]; intros k st Hinv Hk Hval.
  - exists st. rewrite Nat.add_0_r. by split.
  - destruct (scan_step_previous_value elements k st Hinv) as (st1 & Hstep & Hval1);
      [lia|done|].
    destruct (scan_step_inv elements k st Hinv) as (st1' & Hstep' & Hinv1);
      [lia|].
    assert (st1' = st1) as -> by congruence.
    destruct (IH (S k) st1 Hinv1) as (st2 & Hrun & Hval2); [lia|done|].
    exists st2. simpl. rewrite Hstep. simpl.
    split; [done|]. by replace (k + S n) with (S k + n) by lia.
Qed.

(** The previous sequence in closed form: the value of an empty row that
    is not the last row is the empty string; every other row has "bos" at
    the start and after an empty element, and its predecessor otherwise. *)
Lemma previous_sequence_closed_form (elements : list string) :
  ∃ prev next,
    extract_previous_and_next elements = Some (prev, next)
    ∧ ∀ j, j < length elements →
        prev !! j = Some (previous_value elements (length elements) j).
Proof.
  destruct (for_range_previous_value elements (length elements) 0 scan_init
              scan_inv_init) as (st & Hrun & Hval); [lia|intros; lia|].
  exists (prev_tokens st), (next_tokens st).
  unfold extract_previous_and_next. rewrite Hrun. by simpl.
Qed.

(** ** POS categoriser *)

(** C8.  The categoriser treats every tag on its own (the result for a list
    is the list of the results for its tags, whatever surrounds them), and
    gives the empty string for the empty tag, ADJ for JJ, NN for NNPS, PUNCT
    for "." and OTH for FW; for a non-empty tag the category is the first
    that applies among adjective, noun, adverb, pronoun, verb, leading
    punctuation character, and OTH otherwise. *)
Theorem pos_categorizer_examples :
  (∀ tags : list string,
     generate_pos_category tags
     = (λ tag, default "" (head (generate_pos_category [tag]))) <$> tags)
  ∧ generate_pos_category [""] = [""]
  ∧ generate_pos_category ["JJ"] = ["ADJ"]
  ∧ generate_pos_category ["NNPS"] = ["NN"]
  ∧ generate_pos_category ["."] = ["PUNCT"]
  ∧ generate_pos_category ["FW"] = ["OTH"]
  ∧ generate_pos_category [""; "JJ"; "NNPS"; "."; "FW"]
    = [""; "ADJ"; "NN"; "PUNCT"; "OTH"]
  ∧ (∀ (c : Ascii.ascii) (rest : string),
       let tag := String c rest in
       generate_pos_category [tag]
       = [ if decide (tag ∈ ["JJ"; "JJR"; "JJS"]) then "ADJ"
           else if decide (tag ∈ ["NN"; "NNS"; "NNP"; "NNPS"]) then "NN"
           else if decide (tag ∈ ["RB"; "RBR"; "RBS"]) then "ADV"
           else if decide (tag ∈ ["PRP"; "PRP$"]) then "PRO"
           else if decide (tag ∈ ["VB"; "VBD"; "VBG"; "VBN"; "VBP"; "VBZ"])
                then "VERB"
           else if Py.char_in c Py.punctuation then "PUNCT"
           else "OTH" ]).
Proof.
  split.
  { intros tags. rewrite generate_pos_category_map.
    apply list_fmap_ext. intros _ tag _.
    by rewrite generate_pos_category_map. }
  repeat (split; [reflexivity|]).
  - intros c rest tag. rewrite generate_pos_category_map.
    change (pos_category_of <$> [tag]) with [pos_category_of tag].
    f_equal. unfold pos_category_of, tag, adj, nn, adv, pro, vb.
    repeat (case_bool_decide;
            [by rewrite decide_True by done
            |rewrite decide_False by done]).
    reflexivity.
Qed.

(** ** Neighbour extractor *)

(** C4.  On [["w1"; "w2"; ""; "w3"]] the extractor returns
    previous = [["bos"; "w1"; ""; "bos"]] and
    next = [["w2"; "eos"; ""; "eos"]].  After three rows the previous
    sequence still holds "w2" for the blank row; the fourth row clears it. *)
Theorem extract_boundary_example :
  extract_previous_and_next ["w1"; "w2"; ""; "w3"]
  = Some (["bos"; "w1"; ""; "bos"], ["w2"; "eos"; ""; "eos"])
  ∧ for_range 3 (scan_step ["w1"; "w2"; ""; "w3"]) scan_init
    = Some {| position_index := 3;
              prev_tokens := ["bos"; "w1"; "w2"];
              next_tokens := ["w2"; "eos"; ""];
              bos_previous := false; eos_next := false |}.
Proof. split; reflexivity. Qed.

(** The extractor runs to its end on every input, with one output item per
    input item in both sequences. *)
Lemma extract_returns_same_length (elements : list string) :
  ∃ prev next,
    extract_previous_and_next elements = Some (prev, next)
    ∧ length prev = length elements
    ∧ length next = length elements.
Proof.
  destruct (for_range_scan_inv elements (length elements) 0 scan_init
              scan_inv_init) as (st & Hrun & _ & Hprev & Hnext & _); [lia|].
  exists (prev_tokens st), (next_tokens st).
  unfold extract_previous_and_next. rewrite Hrun. by simpl.
Qed.

(** C7.  For every input sequence the extractor returns (it raises nothing)
    and both the previous and the next sequence have the length of the
    input. *)
Theorem extract_previous_and_next_length (elements : list string) :
  ∃ prev next,
    extract_previous_and_next elements = Some (prev, next)
    ∧ length prev = length elements
    ∧ length next = length elements
    ∧ length prev = length next.
Proof.
  destruct (extract_returns_same_length elements)
    as (prev & next & Hrun & Hprev & Hnext).
  exists prev, next. repeat split; try done. congruence.
Qed.

(** C9.  When the input ends with a non-empty element followed by the empty
    string, the previous sequence holds that non-empty element at the last
    position: nothing comes after the trailing blank row to clear it. *)
Theorem trailing_blank_keeps_previous (front : list string) (x : string) :
  x ≠ "" →
  ∃ prev next,
    extract_previous_and_next (front ++ [x; ""]) = Some (prev, next)
    ∧ prev !! (length front + 1) = Some x
    ∧ last prev = Some x.
Proof.
  intros Hx. set (elements := front ++ [x; ""]).
  assert (Hlen : length elements = S (S (length front))).
  { unfold elements. rewrite length_app. simpl. lia. }
  destruct (for_range_scan_inv elements (S (length front)) 0 scan_init
              scan_inv_init) as (st & Hrun & Hinv); [lia|].
  simpl in Hinv.
  assert (Hel : elements !! length front = Some x).
  { unfold elements. by rewrite list_lookup_middle. }
  pose proof (previous_part_literal elements _ st x Hinv Hel Hx) as Hprev.
  destruct Hinv as (Hpos & Hplen & _).
  destruct (next_part_total elements _ st Hpos) as (t & b & Hnext).
  exists (prev_tokens st ++ [x]), (next_tokens st ++ [t]).
  unfold extract_previous_and_next.
  rewrite Hlen, for_range_snoc, Hrun. simpl.
  unfold scan_step. rewrite Hprev, Hnext. simpl.
  split; [done|]. split.
  - replace (length front + 1) with (length (prev_tokens st)) by lia.
    by rewrite list_lookup_middle.
  - by rewrite last_snoc.
Qed.

Lemma trailing_blank_keeps_previous_witness :
  "w2" ≠ ""
  ∧ ∃ prev next,
      extract_previous_and_next (["w1"] ++ ["w2"; ""]) = Some (prev, next)
      ∧ prev !! (length ["w1"] + 1) = Some "w2"
      ∧ last prev = Some "w2".
Proof.
  split; [discriminate|].
  apply (trailing_blank_keeps_previous ["w1"] "w2"). discriminate.
Defined.

(** ** Affix analyser *)

Lemma suffix_loop_cons (lemma : string) (vocab : gset string)
      (s : string) (rest : list string) (st : affix_features) :
  suffix_loop lemma vocab (s :: rest) st
  = if qualifies_suffix lemma s
    then commit s (Py.replace lemma s "" None) vocab st
    else suffix_loop lemma vocab rest st.
Proof.
  unfold qualifies_suffix. simpl.
  destruct (Py.endswith lemma s); [|done].
  by destruct (2 <? _)%nat.
Qed.

Lemma prefix_loop_cons (lemma : string) (vocab : gset string)
      (p : string) (rest : list string) (st : affix_features) :
  prefix_loop lemma vocab (p :: rest) st
  = if qualifies_prefix lemma p
    then commit p (Py.replace lemma p "" (Some 1)) vocab st
    else prefix_loop lemma vocab rest st.
Proof.
  unfold qualifies_prefix. simpl.
  destruct (Py.startswith lemma p); [|done].
  by destruct (3 <? _)%nat.
Qed.

Lemma suffix_loop_skip (lemma : string) (vocab : gset string)
      (pre rest : list string) (st : affix_features) :
  Forall (λ x, qualifies_suffix lemma x = false) pre →
  suffix_loop lemma vocab (pre ++ rest) st = suffix_loop lemma vocab rest st.
Proof.
  induction 1 as [|x pre Hx _ IH]; [done|].
  rewrite <- app_comm_cons, suffix_loop_cons, Hx. exact IH.
Qed.

Lemma prefix_loop_skip (lemma : string) (vocab : gset string)
      (pre rest : list string) (st : affix_features) :
  Forall (λ x, qualifies_prefix lemma x = false) pre →
  prefix_loop lemma vocab (pre ++ rest) st = prefix_loop lemma vocab rest st.
Proof.
  induction 1 as [|x pre Hx _ IH]; [done|].
  rewrite <- app_comm_cons, prefix_loop_cons, Hx. exact IH.
Qed.

Lemma commit_has_affix (a b : string) (vocab : gset string)
      (st : affix_features) :
  has_affix_val (commit a b vocab st) = VInt 1
  ∧ affix_val (commit a b vocab st) = a.
Proof. unfold commit. by case_bool_decide. Qed.

(** The first element of a list that passes a test splits the list. *)
Lemma first_passing_split {A} (P : A → bool) (l : list A) (x : A) :
  x ∈ l → P x = true →
  ∃ pre y post,
    l = pre ++ y :: post
    ∧ Forall (λ z, P z = false) pre
    ∧ P y = true
    ∧ x ∈ y :: post.
Proof.
  induction l as [|a l IH]; intros Hin Hx; [by apply elem_of_nil in Hin|].
  destruct (P a) eqn:Ha.
  - exists [], a, l. by repeat split.
  - apply elem_of_cons in Hin as [->|Hin]; [congruence|].
    destruct (IH Hin Hx) as (pre & y & post & -> & Hpre & Hy & Hmem).
    exists (a :: pre), y, post. repeat split; try done.
    by constructor.
Qed.

Lemma get_affixal_and_base_features_map (lemmas : list string)
      (neg_prefix neg_suffix : list string) (vocab : gset string) :
  let f lemma := affix_features_of lemma neg_prefix neg_suffix vocab in
  get_affixal_and_base_features lemmas neg_prefix neg_suffix vocab
  = ((λ l, has_affix_val (f l)) <$> lemmas,
     (λ l, affix_val (f l)) <$> lemmas,
     (λ l, base_is_word_val (f l)) <$> lemmas,
     (λ l, base_val (f l)) <$> lemmas).
Proof.
  intros f. unfold get_affixal_and_base_features.
  enough (∀ h a w b,
    foldl (λ '(has_affix, affix, base_is_word, base) lemma,
             let g := affix_features_of lemma neg_prefix neg_suffix vocab in
             (has_affix ++ [has_affix_val g], affix ++ [affix_val g],
              base_is_word ++ [base_is_word_val g], base ++ [base_val g]))
          (h, a, w, b) lemmas
    = (h ++ ((λ l, has_affix_val (f l)) <$> lemmas),
       a ++ ((λ l, affix_val (f l)) <$> lemmas),
       w ++ ((λ l, base_is_word_val (f l)) <$> lemmas),
       b ++ ((λ l, base_val (f l)) <$> lemmas))) as H by apply H.
  induction lemmas as [|l lemmas IH]; intros h a w b; simpl.
  - by rewrite !app_nil_r.
  - rewrite IH. by rewrite <- !app_assoc.
Qed.

(** C1.  The stem computed in the suffix pass is [lemma.replace(suffix, "")],
    which deletes every occurrence of the suffix.  On "lessonless" with the
    suffix "less" it is "on", not the lemma without its trailing "less"
    ("lesson"); the analyser therefore records no affix for that lemma,
    although "lesson" is in the vocabulary.  The prefix pass, with its count
    of one, removes the leading occurrence only. *)
Theorem suffix_stem_removes_every_occurrence :
  Py.endswith "lessonless" "less" = true
  ∧ Py.replace "lessonless" "less" "" None = "on"
  ∧ spec_trailing_stem "lessonless" "less" = "lesson"
  ∧ 2 < Py.len (spec_trailing_stem "lessonless" "less")
  ∧ get_affixal_and_base_features
      ["lessonless"] neg_prefix_main neg_suffix_main {["lesson"]}
    = ([VInt 0], [""], [VInt 0], [""])
  ∧ Py.replace "ununhappy" "un" "" (Some 1) = "unhappy".
Proof. repeat split; try (vm_compute; reflexivity). vm_compute. lia. Qed.




(** C3, as worded, fails: "inabcde" starts with "inabc", whose stem "de" is
    too short, and the later prefix "in" is then tried and recorded. *)
Lemma prefix_fallback_counterexample :
  ¬ first_startswith_match_only "inabcde" ∅ [] "inabc" ["in"]
  ∧ get_affixal_and_base_features ["inabcde"] ["inabc"; "in"] [] ∅
    = ([VInt 1], ["in"], [VInt 0], [""])
  ∧ get_affixal_and_base_features ["inabcde"] ["inabc"] [] ∅
    = ([VInt 0], [""], [VInt 0], [""]).
Proof.
  split; [|split; vm_compute; reflexivity].
  intros H.
  assert (prefix_loop "inabcde" ∅ ([] ++ "inabc" :: ["in"]) no_affix
          = prefix_loop "inabcde" ∅ ([] ++ ["inabc"]) no_affix) as Hrun.
  { apply H; [constructor | vm_compute; reflexivity]. }
  vm_compute in Hrun. discriminate Hrun.
Qed.

(** C3, amended.  The prefix pass goes through the prefixes in iteration
    order and stops at the first one that the lemma starts with and whose
    stem is longer than 3, which it commits; no later prefix is tried after
    it.  A prefix that the lemma starts with but whose stem has length 3 or
    less records nothing, and the scan goes on with the later prefixes. *)
Theorem prefix_pass_first_qualifying (lemma : string) (vocab : gset string)
        (before : list string) (prefix : string) (later : list string)
        (st : affix_features) :
  Forall (λ x, qualifies_prefix lemma x = false) before →
  prefix_loop lemma vocab (before ++ prefix :: later) st
  = (if qualifies_prefix lemma prefix
     then commit prefix (Py.replace lemma prefix "" (Some 1)) vocab st
     else prefix_loop lemma vocab later st)
  ∧ (Py.startswith lemma prefix = true →
     Py.len (Py.replace lemma prefix "" (Some 1)) ≤ 3 →
     prefix_loop lemma vocab (before ++ prefix :: later) st
     = prefix_loop lemma vocab later st).
Proof.
  intros Hbefore.
  rewrite (prefix_loop_skip _ _ _ _ _ Hbefore), prefix_loop_cons.
  split; [done|]. intros Hstarts Hshort.
  unfold qualifies_prefix. rewrite Hstarts. simpl.
  by destruct (Nat.ltb_spec 3 (Py.len (Py.replace lemma prefix "" (Some 1))));
    [lia|].
Qed.

Lemma prefix_pass_first_qualifying_witness :
  Forall (λ x, qualifies_prefix "inabcde" x = false) []
  ∧ Py.startswith "inabcde" "inabc" = true
  ∧ Py.len (Py.replace "inabcde" "inabc" "" (Some 1)) ≤ 3
  ∧ prefix_loop "inabcde" ∅ ([] ++ "inabc" :: ["in"]) no_affix
    = prefix_loop "inabcde" ∅ ["in"] no_affix
  ∧ prefix_loop "inabcde" ∅ ["in"] no_affix = commit "in" "abcde" ∅ no_affix.
Proof.
  destruct (prefix_pass_first_qualifying "inabcde" ∅ [] "inabc" ["in"]
              no_affix) as [_ Hshort]; [constructor|].
  split; [constructor|].
  split; [reflexivity|].
  split; [vm_compute; lia|].
  split; [apply Hshort; [reflexivity | vm_compute; lia] | reflexivity].
Defined.

Lemma replace_of_empty (old : string) (count : option nat) :
  Py.replace "" old "" count = "".
Proof.
  unfold Py.replace. destruct old; [|done].
  by destruct (default _ count).
Qed.

(** ** Feature table *)

Lemma lower_char_idemp (c : Ascii.ascii) :
  Py.lower_char (Py.lower_char c) = Py.lower_char c.
Proof. destruct c as [[] [] [] [] [] [] [] []]; reflexivity. Qed.

Lemma lower_idemp (s : string) : Py.lower (Py.lower s) = Py.lower s.
Proof.
  induction s as [|c s IH]; [done|].
  simpl. by rewrite lower_char_idemp, IH.
Qed.

Lemma nth_fmap_lookup {A B} (f : A → B) (l : list A) (i : nat) (x : A)
      (d : B) :
  l !! i = Some x → nth i (f <$> l) d = f x.
Proof.
  intros Hi. apply nth_lookup_Some. by rewrite list_lookup_fmap, Hi.
Qed.

(** What [write_features] hands to [to_csv]: both extractor calls return,
    the frame is built, and its rows are the rows of [feature_row_at] with
    the blank ones filtered out. *)
Lemma write_features_rows (input_data : list input_row)
      (neg_prefix neg_suffix : list string) (vocab : gset string) :
  ∃ prev_tokens next_tokens prev_lemmas next_lemmas,
    extract_previous_and_next (Py.lower <$> (in_token <$> input_data))
    = Some (prev_tokens, next_tokens)
    ∧ extract_previous_and_next (Py.lower <$> (in_lemma <$> input_data))
      = Some (prev_lemmas, next_lemmas)
    ∧ write_features input_data neg_prefix neg_suffix vocab
      = Some (filter (λ r, book r ≠ "")
                (imap (feature_row_at prev_tokens next_tokens
                         prev_lemmas next_lemmas neg_prefix neg_suffix vocab)
                      input_data)).
Proof.
  destruct (extract_returns_same_length
              (Py.lower <$> (in_token <$> input_data)))
    as (pt & nt & Htok & Hpt & Hnt).
  destruct (extract_returns_same_length
              (Py.lower <$> (in_lemma <$> input_data)))
    as (pl & nl & Hlem & Hpl & Hnl).
  rewrite !length_fmap in Hpt, Hnt, Hpl, Hnl.
  exists pt, nt, pl, nl. split; [done|]. split; [done|].
  unfold write_features. rewrite Htok, Hlem. simpl.
  rewrite get_affixal_and_base_features_map, generate_pos_category_map.
  unfold data_frame. cbn [d_book d_sent_num d_token_num d_token d_lemma
    d_pos_tag d_pos_category d_prev_token d_next_token d_prev_lemma
    d_next_lemma d_has_affix d_affix d_base_is_word d_base d_gold_label].
  rewrite !length_fmap, Hpt, Hnt, Hpl, Hnl.
  cbn [forallb]. rewrite Nat.eqb_refl. cbn [andb mbind option_bind].
  do 2 f_equal.
  apply list_eq. intros i.
  rewrite list_lookup_fmap, list_lookup_imap.
  destruct (input_data !! i) as [r|] eqn:Hr.
  - rewrite lookup_seq_lt by (by eapply lookup_lt_Some). simpl.
    f_equal. unfold frame_row, feature_row_at. simpl.
    assert (Hlow_t : (Py.lower <$> (in_token <$> input_data)) !! i
                     = Some (Py.lower (in_token r)))
      by (by rewrite !list_lookup_fmap, Hr).
    assert (Hlow_l : (Py.lower <$> (in_lemma <$> input_data)) !! i
                     = Some (Py.lower (in_lemma r)))
      by (by rewrite !list_lookup_fmap, Hr).
    rewrite !(nth_fmap_lookup _ input_data i r) by done.
    rewrite (nth_lookup_Some _ _ _ _ Hlow_t).
    rewrite (nth_lookup_Some _ _ _ _ Hlow_l).
    rewrite !(nth_fmap_lookup _ _ i _ _ Hlow_l).
    assert (Hpos : (in_pos_tag <$> input_data) !! i = Some (in_pos_tag r))
      by (by rewrite list_lookup_fmap, Hr).
    rewrite (nth_fmap_lookup _ _ i _ _ Hpos).
    reflexivity.
  - rewrite lookup_seq_ge by (by apply lookup_ge_None). done.
Qed.

Lemma filter_book_length (g : nat → input_row → feature_row)
      (l : list input_row) :
  (∀ i r, book (g i r) = in_book r) →
  length (filter (λ r, book r ≠ "") (imap g l)) + blank_rows l = length l.
Proof.
  unfold blank_rows. revert g.
  induction l as [|x l IH]; intros g Hg; [done|].
  cbn [imap]. rewrite !filter_cons, Hg.
  specialize (IH (g ∘ S) (λ i r, Hg (S i) r)).
  destruct (decide (in_book x = "")) as [Hx|Hx].
  - rewrite decide_False by (intros ?; done). simpl. lia.
  - rewrite decide_True by done. simpl. lia.
Qed.

(** C6.  [write_features] always produces its table, and the table has as
    many rows as the input has rows with a non-empty book field: the input
    row count less the number of blank rows, hence the input row count
    itself when there is no blank row. *)
Theorem blank_row_drop_count (input_data : list input_row)
        (neg_prefix neg_suffix : list string) (vocab : gset string) :
  ∃ output,
    write_features input_data neg_prefix neg_suffix vocab = Some output
    ∧ length output + blank_rows input_data = length input_data
    ∧ length output = length input_data - blank_rows input_data
    ∧ (blank_rows input_data = 0 → length output = length input_data)
    ∧ Forall (λ r, book r ≠ "") output.
Proof.
  destruct (write_features_rows input_data neg_prefix neg_suffix vocab)
    as (pt & nt & pl & nl & _ & _ & Hout).
  eexists. split; [exact Hout|].
  pose proof (filter_book_length
                (feature_row_at pt nt pl nl neg_prefix neg_suffix vocab)
                input_data (λ _ _, eq_refl)) as Hlen.
  split; [exact Hlen|]. split; [lia|]. split; [lia|].
  apply Forall_forall. intros r Hr.
  by apply list_elem_of_filter in Hr as [? _].
Qed.

(** C10.  [write_features] lowers the token and the lemma column before any
    extraction.  The neighbour columns are extracted from the lowered token
    and lemma columns; every row of the output carries the book, sentence
    number, token number, POS tag and gold label of its input row unchanged,
    the lowered token and lemma, and the four affix features of the lowered
    lemma; and lowering tokens and lemmas in the input beforehand changes
    nothing in the output. *)
Theorem lowercased_before_extraction (input_data : list input_row)
        (neg_prefix neg_suffix : list string) (vocab : gset string) :
  ∃ prev_tokens next_tokens prev_lemmas next_lemmas output,
    extract_previous_and_next (Py.lower <$> (in_token <$> input_data))
    = Some (prev_tokens, next_tokens)
    ∧ extract_previous_and_next (Py.lower <$> (in_lemma <$> input_data))
      = Some (prev_lemmas, next_lemmas)
    ∧ write_features input_data neg_prefix neg_suffix vocab = Some output
    ∧ output
      = filter (λ r, book r ≠ "")
          (imap (feature_row_at prev_tokens next_tokens
                   prev_lemmas next_lemmas neg_prefix neg_suffix vocab)
                input_data)
    ∧ (∀ row, row ∈ output →
         ∃ i r,
           input_data !! i = Some r
           ∧ book row = in_book r
           ∧ sent_num row = in_sent_num r
           ∧ token_num row = in_token_num r
           ∧ pos_tag row = in_pos_tag r
           ∧ gold_label row = in_label r
           ∧ token row = Py.lower (in_token r)
           ∧ lemma row = Py.lower (in_lemma r)
           ∧ prev_token row = nth i prev_tokens ""
           ∧ next_token row = nth i next_tokens ""
           ∧ prev_lemma row = nth i prev_lemmas ""
           ∧ next_lemma row = nth i next_lemmas ""
           ∧ {| has_affix_val := has_affix row; affix_val := affix row;
                base_is_word_val := base_is_word row; base_val := base row |}
             = affix_features_of (Py.lower (in_lemma r))
                 neg_prefix neg_suffix vocab)
    ∧ write_features (lowercased <$> input_data) neg_prefix neg_suffix vocab
      = Some output.
Proof.
  destruct (write_features_rows input_data neg_prefix neg_suffix vocab)
    as (pt & nt & pl & nl & Htok & Hlem & Hout).
  exists pt, nt, pl, nl. eexists.
  split; [exact Htok|]. split; [exact Hlem|]. split; [exact Hout|].
  split; [reflexivity|]. split.
  - intros row Hrow.
    apply list_elem_of_filter in Hrow as [_ Hrow].
    apply elem_of_lookup_imap in Hrow as (i & r & -> & Hr).
    exists i, r. split; [done|]. unfold feature_row_at. simpl.
    repeat split; try done.
    by destruct (affix_features_of _ _ _ _).
  - rewrite <- Hout. unfold write_features.
    assert (Hcol : ∀ (f : input_row → string),
              (∀ r, f (lowercased r) = f r) →
              f <$> (lowercased <$> input_data) = f <$> input_data).
    { intros f Hf. rewrite <- list_fmap_compose.
      apply list_fmap_ext. intros _ r _. apply Hf. }
    assert (Hlow : ∀ (f : input_row → string),
              (∀ r, f (lowercased r) = Py.lower (f r)) →
              Py.lower <$> (f <$> (lowercased <$> input_data))
              = Py.lower <$> (f <$> input_data)).
    { intros f Hf. rewrite <- !list_fmap_compose.
      apply list_fmap_ext. intros _ r _. simpl.
      rewrite Hf. apply lower_idemp. }
    rewrite (Hcol in_book), (Hcol in_sent_num), (Hcol in_token_num),
      (Hcol in_pos_tag), (Hcol in_label) by done.
    rewrite (Hlow in_token), (Hlow in_lemma) by done.
    reflexivity.
Qed.

(** * Further properties *)

(** ** Neighbour extractor: both sequences in closed form *)

Lemma next_part_value (elements : list string) (k : nat) (st : scan_state) :
  position_index st = Z.of_nat k →
  eos_next st = eos_pending elements k →
  next_part elements st
  = Some (next_value elements k, eos_pending elements (S k)).
Proof.
  intros Hpos Heos. unfold next_part, next_value.
  rewrite Hpos, Heos. cbn [eos_pending].
  destruct (eos_pending elements k); [done|]. simpl.
  replace (Z.of_nat k + 1)%Z with (Z.of_nat (S k)) by lia.
  destruct (Z.ltb_spec (Z.of_nat (S k)) (Z.of_nat (length elements)))
    as [Hlt|Hge].
  - rewrite getitem_nat by lia.
    destruct (lookup_lt_is_Some_2 elements (S k)) as [e He]; [lia|].
    rewrite He. simpl.
    destruct (String.eqb_spec e "") as [->|Hne].
    + by rewrite bool_decide_eq_true_2.
    + by rewrite bool_decide_eq_false_2 by congruence.
  - rewrite lookup_ge_None_2 by lia.
    by rewrite bool_decide_eq_false_2.
Qed.

Lemma scan_step_next_value (elements : list string) (k : nat)
      (st : scan_state) :
  scan_inv k st → k ≤ length elements →
  eos_next st = eos_pending elements k →
  (∀ j, j < k → next_tokens st !! j = Some (next_value elements j)) →
  ∃ st', scan_step elements st = Some st'
         ∧ eos_next st' = eos_pending elements (S k)
         ∧ ∀ j, j < S k →
             next_tokens st' !! j = Some (next_value elements j).
Proof.
  intros Hinv Hk Heos Hval.
  destruct (previous_part_total elements k st Hinv Hk)
    as (t & patched & Hprev & _).
  destruct Hinv as (Hpos & _ & Hlen & _).
  unfold scan_step.
  rewrite Hprev, (next_part_value elements k st Hpos Heos). simpl.
  eexists. split; [reflexivity|]. simpl. split; [done|].
  intros j Hj. destruct (decide (j = k)) as [->|Hne].
  - rewrite lookup_app_r by lia. by rewrite Hlen, Nat.sub_diag.
  - rewrite lookup_app_l by lia. apply Hval. lia.
Qed.

Lemma for_range_scan_done (elements : list string) (n k : nat)
      (st : scan_state) :
  scan_done elements k st → k + n ≤ length elements →
  ∃ st', for_range n (scan_step elements) st = Some st'
         ∧ scan_done elements (k + n) st'.
Proof.
  revert k st. induction n as [|n IH]; intros k st Hdone Hk.
  - exists st. rewrite Nat.add_0_r. by split.
  - destruct Hdone as (Hinv & Heos & Hp & Hn).
    destruct (scan_step_inv elements k st Hinv) as (st1 & Hstep & Hinv1);
      [lia|].
    destruct (scan_step_previous_value elements k st Hinv) as (s2 & Hs2 & Hp1);
      [lia|done|].
    destruct (scan_step_next_value elements k st Hinv) as (s3 & Hs3 & He1 & Hn1);
      [lia|done|done|].
    assert (s2 = st1) as -> by congruence.
    assert (s3 = st1) as -> by congruence.
    destruct (IH (S k) st1) as (st2 & Hrun & Hdone2);
      [unfold scan_done; by auto|lia|].
    exists st2. simpl. rewrite Hstep. simpl.
    split; [done|]. by replace (k + S n) with (S k + n) by lia.
Qed.

Lemma extract_closed_form (elements : list string) :
  ∃ prev next,
    extract_previous_and_next elements = Some (prev, next)
    ∧ length prev = length elements
    ∧ length next = length elements
    ∧ (∀ j, j < length elements →
         prev !! j = Some (previous_value elements (length elements) j))
    ∧ (∀ j, j < length elements →
         next !! j = Some (next_value elements j)).
Proof.
  destruct (for_range_scan_done elements (length elements) 0 scan_init)
    as (st & Hrun & (_ & Hpl & Hnl & _) & _ & Hp & Hn); [|lia|].
  { split; [apply scan_inv_init|]. split; [done|]. split; intros; lia. }
  exists (prev_tokens st), (next_tokens st).
  unfold extract_previous_and_next. rewrite Hrun. by simpl.
Qed.

Lemma eos_pending_blank (elements : list string) (j : nat) :
  eos_pending elements j = true → elements !! j = Some "".
Proof.
  destruct j as [|i]; simpl; [done|].
  intros H. apply andb_true_iff in H as [_ H].
  by apply bool_decide_eq_true_1 in H.
Qed.

Lemma eos_pending_nonblank (elements : list string) (j : nat) :
  elements !! j ≠ Some "" → eos_pending elements j = false.
Proof.
  intros H. destruct (eos_pending elements j) eqn:E; [|done].
  by apply eos_pending_blank in E.
Qed.

Lemma raw_previous_nonempty (elements : list string) (j : nat) :
  raw_previous elements j ≠ "".
Proof.
  destruct j as [|i]; simpl; [done|].
  destruct (elements !! i) as [e|]; [|done].
  by destruct (String.eqb_spec e "").
Qed.

Lemma previous_value_nonblank (elements : list string) (k j : nat) :
  elements !! j ≠ Some "" →
  previous_value elements k j = raw_previous elements j.
Proof.
  intros H. unfold previous_value.
  rewrite bool_decide_eq_false_2 by done. by rewrite andb_false_r.
Qed.

(** X1.  The extractor in closed form.  Row [j] of the previous sequence is
    the empty string when element [j] is empty and is not the last one;
    otherwise it is "bos" for the first row and after an empty element, and
    the preceding element in all other cases.  Row [j] of the next sequence
    is the empty string when the row before raised the end-of-sentence flag
    (it saw that element [j] is empty, and had not found the flag raised
    itself); otherwise it is "eos" for the last row and before an empty
    element, and the following element in all other cases. *)
Theorem neighbours_closed_form (elements : list string) :
  ∃ prev next,
    extract_previous_and_next elements = Some (prev, next)
    ∧ ∀ j, j < length elements →
        prev !! j
        = Some (if (S j <? length elements)%nat
                   && bool_decide (elements !! j = Some "")
                then "" else raw_previous elements j)
        ∧ next !! j
          = Some (if eos_pending elements j then ""
                  else match elements !! S j with
                       | Some e => if String.eqb e "" then "eos" else e
                       | None => "eos"
                       end).
Proof.
  destruct (extract_closed_form elements)
    as (prev & next & Hrun & _ & _ & Hp & Hn).
  exists prev, next. split; [done|]. intros j Hj.
  split; [by apply Hp | by apply Hn].
Qed.

Lemma neighbours_closed_form_witness :
  ∃ prev next,
    extract_previous_and_next ["a"; ""; ""; "b"] = Some (prev, next)
    ∧ prev = ["bos"; ""; ""; "bos"]
    ∧ next = ["eos"; ""; "b"; "eos"]
    ∧ next !! 2
      = Some (if eos_pending ["a"; ""; ""; "b"] 2 then ""
              else match ["a"; ""; ""; "b"] !! 3 with
                   | Some e => if String.eqb e "" then "eos" else e
                   | None => "eos"
                   end).
Proof.
  destruct (neighbours_closed_form ["a"; ""; ""; "b"])
    as (prev & next & Hrun & Hval).
  exists prev, next. split; [exact Hrun|].
  vm_compute in Hrun. injection Hrun as <- <-.
  split; [reflexivity|]. split; reflexivity.
Defined.

(** X2.  A sequence without empty strings is one sentence: the previous
    sequence is "bos" followed by the elements but the last, the next
    sequence is the elements but the first followed by "eos". *)
Theorem single_sentence_neighbours (elements : list string) :
  Forall (λ e, e ≠ "") elements →
  extract_previous_and_next elements
  = Some (take (length elements) ("bos" :: elements),
          drop 1 (elements ++ ["eos"])).
Proof.
  intros Hall.
  assert (Hnb : ∀ j, elements !! j ≠ Some "").
  { intros j Hj. by apply (Forall_lookup_1 _ _ _ _ Hall) in Hj. }
  destruct (extract_closed_form elements)
    as (prev & next & Hrun & Hpl & Hnl & Hp & Hn).
  rewrite Hrun. do 2 f_equal; apply list_eq; intros j.
  - destruct (decide (j < length elements)) as [Hj|Hj].
    + rewrite Hp, lookup_take_lt, previous_value_nonblank by done.
      destruct j as [|i]; [done|]. simpl.
      destruct (lookup_lt_is_Some_2 elements i) as [e He]; [lia|].
      rewrite He. destruct (String.eqb_spec e "") as [->|_]; [|done].
      by destruct (Hnb i).
    + rewrite lookup_take_ge by lia. apply lookup_ge_None_2. lia.
  - rewrite lookup_drop. change (1 + j) with (S j).
    destruct (decide (j < length elements)) as [Hj|Hj].
    + rewrite Hn by done. unfold next_value.
      rewrite eos_pending_nonblank by done.
      destruct (decide (S j < length elements)) as [Hs|Hs].
      * rewrite lookup_app_l by done.
        destruct (lookup_lt_is_Some_2 elements (S j)) as [e He]; [lia|].
        rewrite He. destruct (String.eqb_spec e "") as [->|_]; [|done].
        by destruct (Hnb (S j)).
      * rewrite lookup_ge_None_2 by lia.
        rewrite lookup_app_r by lia.
        by replace (S j - length elements) with 0 by lia.
    + rewrite (lookup_ge_None_2 next) by lia.
      symmetry. apply lookup_ge_None_2. rewrite length_app. simpl. lia.
Qed.

Lemma single_sentence_neighbours_witness :
  Forall (λ e, e ≠ "") ["the"; "cat"; "sat"]
  ∧ extract_previous_and_next ["the"; "cat"; "sat"]
    = Some (["bos"; "the"; "cat"], ["cat"; "sat"; "eos"]).
Proof.
  assert (H : Forall (λ e, e ≠ "") ["the"; "cat"; "sat"])
    by (repeat constructor; discriminate).
  split; [exact H|].
  exact (single_sentence_neighbours ["the"; "cat"; "sat"] H).
Defined.

(** X3.  A non-empty element never gets an empty neighbour value: its
    previous value is "bos" or the non-empty element before it, its next
    value is "eos" or the non-empty element after it. *)
Theorem nonblank_row_neighbours (elements : list string) (j : nat)
        (e : string) :
  elements !! j = Some e → e ≠ "" →
  ∃ prev next p n,
    extract_previous_and_next elements = Some (prev, next)
    ∧ prev !! j = Some p ∧ next !! j = Some n
    ∧ p ≠ "" ∧ n ≠ ""
    ∧ p = match j with
          | O => "bos"
          | S i => match elements !! i with
                   | Some x => if String.eqb x "" then "bos" else x
                   | None => "bos"
                   end
          end
    ∧ n = match elements !! S j with
          | Some x => if String.eqb x "" then "eos" else x
          | None => "eos"
          end.
Proof.
  intros He Hne.
  assert (Hnb : elements !! j ≠ Some "") by (rewrite He; congruence).
  assert (Hj : j < length elements) by (by eapply lookup_lt_Some).
  destruct (extract_closed_form elements)
    as (prev & next & Hrun & _ & _ & Hp & Hn).
  exists prev, next, (raw_previous elements j), (next_value elements j).
  split; [done|].
  split; [by rewrite Hp, previous_value_nonblank|].
  split; [by apply Hn|].
  split; [apply raw_previous_nonempty|].
  unfold next_value. rewrite eos_pending_nonblank by done.
  split; [|done].
  destruct (elements !! S j) as [x|]; [|done].
  by destruct (String.eqb_spec x "").
Qed.

Lemma nonblank_row_neighbours_witness :
  ["a"; ""; "b"] !! 2 = Some "b" ∧ "b" ≠ ""
  ∧ ∃ prev next p n,
      extract_previous_and_next ["a"; ""; "b"] = Some (prev, next)
      ∧ prev !! 2 = Some p ∧ next !! 2 = Some n
      ∧ p ≠ "" ∧ n ≠ ""
      ∧ p = "bos" ∧ n = "eos".
Proof.
  split; [reflexivity|]. split; [discriminate|].
  exact (nonblank_row_neighbours ["a"; ""; "b"] 2 "b" eq_refl
           ltac:(discriminate)).
Defined.

(** X4.  The boundary policy around an empty element that has a non-empty
    element before it and a non-empty element after it: the row before gets
    next = "eos", the empty row gets the empty string in both sequences, and
    the row after gets previous = "bos". *)
Theorem interior_blank_row (elements : list string) (j : nat)
        (before after : string) :
  elements !! j = Some before → before ≠ "" →
  elements !! S j = Some "" →
  elements !! S (S j) = Some after → after ≠ "" →
  ∃ prev next,
    extract_previous_and_next elements = Some (prev, next)
    ∧ next !! j = Some "eos"
    ∧ prev !! S j = Some "" ∧ next !! S j = Some ""
    ∧ prev !! S (S j) = Some "bos".
Proof.
  intros Hb Hne Hblank Ha Hane.
  assert (Hnb : elements !! j ≠ Some "") by (rewrite Hb; congruence).
  assert (Hlen : S (S j) < length elements) by (by eapply lookup_lt_Some).
  destruct (extract_closed_form elements)
    as (prev & next & Hrun & _ & _ & Hp & Hn).
  exists prev, next. split; [done|].
  rewrite !Hp, !Hn by lia. unfold next_value, previous_value.
  cbn [eos_pending raw_previous].
  rewrite (eos_pending_nonblank elements j Hnb), Hblank, Ha.
  rewrite !bool_decide_eq_true_2 by done.
  rewrite (proj2 (Nat.ltb_lt (S (S j)) (length elements))) by lia.
  simpl. repeat split; try done.
  rewrite bool_decide_eq_false_2 by congruence.
  by rewrite andb_false_r.
Qed.

Lemma interior_blank_row_witness :
  ["w1"; "w2"; ""; "w3"] !! 1 = Some "w2" ∧ "w2" ≠ ""
  ∧ ["w1"; "w2"; ""; "w3"] !! 2 = Some ""
  ∧ ["w1"; "w2"; ""; "w3"] !! 3 = Some "w3" ∧ "w3" ≠ ""
  ∧ ∃ prev next,
      extract_previous_and_next ["w1"; "w2"; ""; "w3"] = Some (prev, next)
      ∧ next !! 1 = Some "eos"
      ∧ prev !! 2 = Some "" ∧ next !! 2 = Some ""
      ∧ prev !! 3 = Some "bos".
Proof.
  split; [reflexivity|]. split; [discriminate|].
  split; [reflexivity|]. split; [reflexivity|]. split; [discriminate|].
  exact (interior_blank_row ["w1"; "w2"; ""; "w3"] 1 "w2" "w3" eq_refl
           ltac:(discriminate) eq_refl eq_refl ltac:(discriminate)).
Defined.



Lemma eos_pending_app_l (s1 t : list string) (j : nat) :
  j < length s1 → eos_pending (s1 ++ t) j = eos_pending s1 j.
Proof.
  induction j as [|i IH]; intros Hj; [done|].
  cbn [eos_pending]. rewrite IH by lia. by rewrite lookup_app_l by lia.
Qed.

Lemma raw_previous_app_l (s1 t : list string) (j : nat) :
  j < length s1 → raw_previous (s1 ++ t) j = raw_previous s1 j.
Proof.
  intros Hj. destruct j as [|i]; [done|].
  simpl. by rewrite lookup_app_l by lia.
Qed.

(** Joining two sequences by an empty element joins their results by an
    empty string, provided the first ends with a non-empty element and the
    second is not empty. *)
Lemma extract_app_blank (s1 s2 : list string) (x : string) :
  last s1 = Some x → x ≠ "" → s2 ≠ [] →
  ∃ p1 n1 p2 n2,
    extract_previous_and_next s1 = Some (p1, n1)
    ∧ extract_previous_and_next s2 = Some (p2, n2)
    ∧ extract_previous_and_next (s1 ++ "" :: s2)
      = Some (p1 ++ "" :: p2, n1 ++ "" :: n2).
Proof.
  intros Hlast Hx Hs2.
  apply last_Some in Hlast as [s0 ->].
  set (s1 := s0 ++ [x]). set (elements := s1 ++ "" :: s2).
  assert (Hl1 : length s1 = S (length s0)).
  { unfold s1. rewrite length_app. simpl. lia. }
  assert (Hl2 : 0 < length s2) by (destruct s2; [done|simpl; lia]).
  assert (Hle : length elements = length s1 + S (length s2)).
  { unfold elements. rewrite length_app. by simpl. }
  assert (Hx1 : s1 !! length s0 = Some x).
  { unfold s1. by rewrite list_lookup_middle. }
  assert (Hl : ∀ j, j < length s1 → elements !! j = s1 !! j).
  { intros j Hj. unfold elements. by rewrite lookup_app_l. }
  assert (Hm : elements !! length s1 = Some "").
  { unfold elements. by rewrite list_lookup_middle. }
  assert (Hr : ∀ i, elements !! (S (length s1) + i) = s2 !! i).
  { intros i. unfold elements. rewrite lookup_app_r by lia.
    by replace (S (length s1) + i - length s1) with (S i) by lia. }
  assert (Hfirst : eos_pending elements (length s1) = true).
  { rewrite Hl1. cbn [eos_pending].
    rewrite eos_pending_nonblank
      by (rewrite Hl by lia; rewrite Hx1; congruence).
    rewrite <- Hl1, Hm. by rewrite bool_decide_eq_true_2. }
  assert (Hshift : ∀ i, eos_pending elements (S (length s1) + i)
                        = eos_pending s2 i).
  { induction i as [|i IH].
    - rewrite Nat.add_0_r. cbn [eos_pending]. by rewrite Hfirst.
    - replace (S (length s1) + S i) with (S (S (length s1) + i)) by lia.
      cbn [eos_pending]. rewrite IH.
      replace (S (S (length s1) + i)) with (S (length s1) + S i) by lia.
      by rewrite Hr. }
  destruct (extract_closed_form s1)
    as (p1 & n1 & Hrun1 & Hp1l & Hn1l & Hp1 & Hn1).
  destruct (extract_closed_form s2)
    as (p2 & n2 & Hrun2 & Hp2l & Hn2l & Hp2 & Hn2).
  destruct (extract_closed_form elements)
    as (p & n & Hrun & Hpl & Hnl & Hp & Hn).
  exists p1, n1, p2, n2. split; [done|]. split; [done|].
  rewrite Hrun. do 2 f_equal; apply list_eq; intros j.
  - destruct (decide (j < length s1)) as [Hj|Hj].
    + rewrite lookup_app_l, Hp, Hp1 by lia. f_equal.
      unfold previous_value, elements.
      rewrite raw_previous_app_l, lookup_app_l by done.
      destruct (bool_decide (s1 !! j = Some "")) eqn:Hb;
        [|by rewrite !andb_false_r].
      apply bool_decide_eq_true_1 in Hb.
      assert (j ≠ length s0) by (intros ->; congruence).
      by rewrite !(proj2 (Nat.ltb_lt (S j) _))
        by (try rewrite length_app; simpl; lia).
    + destruct (decide (j = length s1)) as [->|Hj'].
      * rewrite <- Hp1l at 2. rewrite list_lookup_middle by done.
        rewrite Hp by lia. unfold previous_value.
        rewrite Hm, bool_decide_eq_true_2 by done.
        by rewrite (proj2 (Nat.ltb_lt _ _)) by lia.
      * rewrite lookup_app_r by lia. rewrite Hp1l.
        destruct (j - length s1) as [|i] eqn:Hi; [lia|]. simpl.
        assert (j = S (length s1) + i) as -> by lia.
        destruct (decide (i < length s2)) as [Hlt|Hge].
        -- rewrite Hp, Hp2 by lia. f_equal.
           unfold previous_value. rewrite Hr.
           assert ((S (S (length s1) + i) <? length elements)%nat
                   = (S i <? length s2)%nat) as ->.
           { destruct (Nat.ltb_spec (S i) (length s2));
               [apply Nat.ltb_lt | apply Nat.ltb_ge]; lia. }
           assert (raw_previous elements (S (length s1) + i)
                   = raw_previous s2 i) as ->; [|done].
           destruct i as [|i']; simpl.
           ++ rewrite Nat.add_0_r, Hm. done.
           ++ replace (length s1 + S i') with (S (length s1) + i') by lia.
              by rewrite Hr.
        -- rewrite (lookup_ge_None_2 p2) by lia.
           apply lookup_ge_None_2. lia.
  - destruct (decide (j < length s1)) as [Hj|Hj].
    + rewrite lookup_app_l, Hn, Hn1 by lia. f_equal.
      unfold next_value. unfold elements at 1.
      rewrite eos_pending_app_l by done.
      destruct (eos_pending s1 j); [done|].
      destruct (decide (S j < length s1)) as [Hs|Hs].
      * by rewrite Hl by done.
      * assert (S j = length s1) as -> by lia.
        rewrite Hm. by rewrite lookup_ge_None_2 by lia.
    + destruct (decide (j = length s1)) as [->|Hj'].
      * rewrite <- Hn1l at 2. rewrite list_lookup_middle by done.
        rewrite Hn by lia. unfold next_value. by rewrite Hfirst.
      * rewrite lookup_app_r by lia. rewrite Hn1l.
        destruct (j - length s1) as [|i] eqn:Hi; [lia|]. simpl.
        assert (j = S (length s1) + i) as -> by lia.
        destruct (decide (i < length s2)) as [Hlt|Hge].
        -- rewrite Hn, Hn2 by lia. f_equal.
           unfold next_value. rewrite Hshift.
           replace (S (S (length s1) + i)) with (S (length s1) + S i) by lia.
           by rewrite Hr.
        -- rewrite (lookup_ge_None_2 n2) by lia.
           apply lookup_ge_None_2. lia.
Qed.

(** X6.  Sentences are processed independently.  When a sequence that ends
    with a non-empty element and a non-empty sequence are joined by one empty
    element, the result is the two separate results joined by an empty
    string, in the previous and in the next sequence. *)
Theorem sentences_are_independent (s1 s2 : list string) (x : string) :
  last s1 = Some x → x ≠ "" → s2 ≠ [] →
  ∃ p1 n1 p2 n2,
    extract_previous_and_next s1 = Some (p1, n1)
    ∧ extract_previous_and_next s2 = Some (p2, n2)
    ∧ extract_previous_and_next (s1 ++ "" :: s2)
      = Some (p1 ++ "" :: p2, n1 ++ "" :: n2).
Proof.
  intros Hlast Hx Hs2.
  destruct (extract_app_blank s1 s2 x Hlast Hx Hs2)
    as (p1 & n1 & p2 & n2 & H1 & H2 & H12).
  exists p1, n1, p2, n2. by repeat split.
Qed.

Lemma sentences_are_independent_witness :
  last ["no"; "one"] = Some "one" ∧ "one" ≠ "" ∧ ["came"] ≠ []
  ∧ ∃ p1 n1 p2 n2,
      extract_previous_and_next ["no"; "one"] = Some (p1, n1)
      ∧ extract_previous_and_next ["came"] = Some (p2, n2)
      ∧ extract_previous_and_next (["no"; "one"] ++ "" :: ["came"])
        = Some (p1 ++ "" :: p2, n1 ++ "" :: n2).
Proof.
  split; [reflexivity|]. split; [discriminate|]. split; [discriminate|].
  exact (sentences_are_independent ["no"; "one"] ["came"] "one" eq_refl
           ltac:(discriminate) ltac:(discriminate)).
Defined.

(** ** Python string primitives: facts used below *)

Lemma replace_scan_length (old : string) (k n : nat) (s : string) :
  Py.len (Py.replace_scan old "" k n s) ≤ Py.len s.
Proof.
  unfold Py.len. revert k n.
  induction s as [|c s IH]; intros k n; [done|].
  cbn [Py.replace_scan String.length].
  destruct k as [|k]; [|specialize (IH k n); lia].
  destruct n as [|n].
  - cbn [String.length]. specialize (IH 0 0). lia.
  - destruct (String.prefix old (String c s)).
    + change ("" +:+ ?x) with x.
      specialize (IH (String.length old - 1) n). unfold Py.len. lia.
    + cbn [String.length]. specialize (IH 0 (S n)). lia.
Qed.

Lemma replace_empty_id (n : nat) (s : string) :
  Py.replace_empty "" n s = s.
Proof.
  revert n. induction s as [|c s IH]; intros [|n]; simpl; try done.
  by rewrite IH.
Qed.

(** Replacing by the empty string never makes a string longer. *)
Lemma replace_length (s old : string) (count : option nat) :
  Py.len (Py.replace s old "" count) ≤ Py.len s.
Proof.
  unfold Py.replace. destruct old.
  - by rewrite replace_empty_id.
  - apply replace_scan_length.
Qed.

Lemma prefix_app (p s : string) :
  String.prefix p s = true → ∃ t, s = p +:+ t.
Proof.
  revert s. induction p as [|a p IH]; intros s H; [by exists s|].
  destruct s as [|b s]; [done|]. simpl in H.
  destruct (Ascii.ascii_dec a b) as [->|_]; [|done].
  destruct (IH s H) as [t ->]. by exists t.
Qed.

Lemma prefix_app_true (p t : string) : String.prefix p (p +:+ t) = true.
Proof.
  induction p as [|a p IH]; simpl; [by destruct t|].
  by destruct (Ascii.ascii_dec a a).
Qed.

Lemma replace_scan_copy (old new s : string) :
  Py.replace_scan old new 0 0 s = s.
Proof. induction s as [|c s IH]; simpl; [done|]. by rewrite IH. Qed.

Lemma replace_scan_skip (old new q t : string) :
  Py.replace_scan old new (Py.len q) 0 (q +:+ t) = t.
Proof.
  induction q as [|c q IH]; simpl; [apply replace_scan_copy|]. apply IH.
Qed.

(** Removing one leading occurrence of a prefix leaves what follows it. *)
Lemma replace_first_prefix (p t : string) :
  Py.replace (p +:+ t) p "" (Some 1) = t.
Proof.
  unfold Py.replace. simpl. destruct p as [|a p].
  - simpl. destruct t; [done|]. by simpl.
  - change (String a p +:+ t) with (String a (p +:+ t)).
    cbn [Py.replace_scan].
    change (String a (p +:+ t)) with (String a p +:+ t).
    rewrite prefix_app_true. simpl. rewrite Nat.sub_0_r.
    apply replace_scan_skip.
Qed.

(** ** Affix analyser: the loops as a search for the first match *)

Lemma suffix_loop_find (lemma : string) (vocab : gset string)
      (neg_suffix : list string) (st : affix_features) :
  suffix_loop lemma vocab neg_suffix st
  = match find (qualifies_suffix lemma) neg_suffix with
    | Some s => commit s (Py.replace lemma s "" None) vocab st
    | None => st
    end.
Proof.
  induction neg_suffix as [|s rest IH]; [done|].
  rewrite suffix_loop_cons. simpl.
  by destruct (qualifies_suffix lemma s).
Qed.

Lemma prefix_loop_find (lemma : string) (vocab : gset string)
      (neg_prefix : list string) (st : affix_features) :
  prefix_loop lemma vocab neg_prefix st
  = match find (qualifies_prefix lemma) neg_prefix with
    | Some p => commit p (Py.replace lemma p "" (Some 1)) vocab st
    | None => st
    end.
Proof.
  induction neg_prefix as [|p rest IH]; [done|].
  rewrite prefix_loop_cons. simpl.
  by destruct (qualifies_prefix lemma p).
Qed.

Lemma affix_features_of_find (lemma : string)
      (neg_prefix neg_suffix : list string) (vocab : gset string) :
  lemma ≠ "" →
  affix_features_of lemma neg_prefix neg_suffix vocab
  = match find (qualifies_suffix lemma) neg_suffix with
    | Some s => commit s (Py.replace lemma s "" None) vocab no_affix
    | None =>
        match find (qualifies_prefix lemma) neg_prefix with
        | Some p => commit p (Py.replace lemma p "" (Some 1)) vocab no_affix
        | None => no_affix
        end
    end.
Proof.
  intros Hne. unfold affix_features_of.
  destruct lemma as [|c rest]; [done|].
  fold no_affix. rewrite suffix_loop_find, prefix_loop_find.
  destruct (find (qualifies_suffix (String c rest)) neg_suffix) as [s|];
    [|done].
  by destruct (commit_has_affix s (Py.replace (String c rest) s "" None)
                 vocab no_affix) as [-> _].
Qed.

Lemma qualifies_of_empty (x : string) :
  qualifies_suffix "" x = false ∧ qualifies_prefix "" x = false.
Proof.
  unfold qualifies_suffix, qualifies_prefix.
  rewrite !replace_of_empty. simpl. by rewrite !andb_false_r.
Qed.

Lemma find_qualifies {A} (P : A → bool) (l : list A) :
  match find P l with
  | Some x => x ∈ l ∧ P x = true
  | None => Forall (λ x, P x = false) l
  end.
Proof.
  induction l as [|a l IH]; simpl; [constructor|].
  destruct (P a) eqn:Ha; [split; [by constructor|done]|].
  destruct (find P l) as [x|].
  - destruct IH. split; [by constructor|done].
  - by constructor.
Qed.

(** X7.  The analyser as a search.  For an empty lemma the four values are
    empty strings.  Otherwise the result is decided by the first suffix in
    iteration order that the lemma ends with and whose stem (the lemma with
    every occurrence of the suffix deleted) is longer than 2; failing that,
    by the first prefix in iteration order that the lemma starts with and
    whose stem (the lemma with its first occurrence of the prefix deleted)
    is longer than 3; failing that, it is (0, "", 0, "").  A decided result
    is (1, affix, 1, stem) when the stem is in the vocabulary and
    (1, affix, 0, "") when it is not. *)
Theorem affix_analyzer_first_match (lemma : string)
        (neg_prefix neg_suffix : list string) (vocab : gset string) :
  let decided affix stem :=
    if decide (stem ∈ vocab)
    then {| has_affix_val := VInt 1; affix_val := affix;
            base_is_word_val := VInt 1; base_val := stem |}
    else {| has_affix_val := VInt 1; affix_val := affix;
            base_is_word_val := VInt 0; base_val := "" |} in
  affix_features_of lemma neg_prefix neg_suffix vocab
  = if decide (lemma = "")
    then {| has_affix_val := VStr ""; affix_val := "";
            base_is_word_val := VStr ""; base_val := "" |}
    else
      match find (λ s, Py.endswith lemma s
                       && (2 <? Py.len (Py.replace lemma s "" None))%nat)
                 neg_suffix with
      | Some s => decided s (Py.replace lemma s "" None)
      | None =>
          match find (λ p, Py.startswith lemma p
                           && (3 <? Py.len (Py.replace lemma p "" (Some 1)))%nat)
                     neg_prefix with
          | Some p => decided p (Py.replace lemma p "" (Some 1))
          | None => {| has_affix_val := VInt 0; affix_val := "";
                       base_is_word_val := VInt 0; base_val := "" |}
          end
      end.
Proof.
  intros decided. destruct (decide (lemma = "")) as [->|Hne]; [done|].
  rewrite affix_features_of_find by done.
  assert (Hc : ∀ a b, commit a b vocab no_affix = decided a b).
  { intros a b. unfold commit, decided.
    case_bool_decide;
      [by rewrite decide_True by done | by rewrite decide_False by done]. }
  change (λ s, Py.endswith lemma s
               && (2 <? Py.len (Py.replace lemma s "" None))%nat)
    with (qualifies_suffix lemma).
  change (λ p, Py.startswith lemma p
               && (3 <? Py.len (Py.replace lemma p "" (Some 1)))%nat)
    with (qualifies_prefix lemma).
  destruct (find (qualifies_suffix lemma) neg_suffix); [apply Hc|].
  destruct (find (qualifies_prefix lemma) neg_prefix); [apply Hc|done].
Qed.

(** X8.  The four values are always one of four shapes: all empty strings
    (exactly for the empty lemma); (0, "", 0, ""); (1, a, 0, ""); or
    (1, a, 1, b).  In the last two, a is a member of one of the two affix
    sets; in the last, b is a vocabulary word of at least three characters
    and no longer than the lemma.  So base_is_word = 1 never comes without
    has_affix = 1, the base is non-empty exactly when base_is_word = 1, and a
    lemma of one or two characters always gets (0, "", 0, ""). *)
Theorem affix_fields_consistent (lemma : string)
        (neg_prefix neg_suffix : list string) (vocab : gset string) :
  let f := affix_features_of lemma neg_prefix neg_suffix vocab in
  (lemma = ""
   ∧ f = {| has_affix_val := VStr ""; affix_val := "";
            base_is_word_val := VStr ""; base_val := "" |})
  ∨ (lemma ≠ ""
     ∧ f = {| has_affix_val := VInt 0; affix_val := "";
              base_is_word_val := VInt 0; base_val := "" |})
  ∨ (3 ≤ Py.len lemma
     ∧ ∃ a, a ∈ neg_suffix ++ neg_prefix
       ∧ (f = {| has_affix_val := VInt 1; affix_val := a;
                 base_is_word_val := VInt 0; base_val := "" |}
          ∨ ∃ b, b ∈ vocab ∧ 3 ≤ Py.len b ∧ Py.len b ≤ Py.len lemma
              ∧ f = {| has_affix_val := VInt 1; affix_val := a;
                       base_is_word_val := VInt 1; base_val := b |})).
Proof.
  intros f. destruct (decide (lemma = "")) as [->|Hne]; [by left|].
  right. subst f. rewrite affix_features_of_find by done.
  assert (Hcommit : ∀ a c, a ∈ neg_suffix ++ neg_prefix →
            2 < Py.len (Py.replace lemma a "" c) →
            3 ≤ Py.len lemma
            ∧ ∃ a', a' ∈ neg_suffix ++ neg_prefix
              ∧ (commit a (Py.replace lemma a "" c) vocab no_affix
                 = {| has_affix_val := VInt 1; affix_val := a';
                      base_is_word_val := VInt 0; base_val := "" |}
                 ∨ ∃ b, b ∈ vocab ∧ 3 ≤ Py.len b ∧ Py.len b ≤ Py.len lemma
                     ∧ commit a (Py.replace lemma a "" c) vocab no_affix
                       = {| has_affix_val := VInt 1; affix_val := a';
                            base_is_word_val := VInt 1; base_val := b |})).
  { intros a c Hin Hlong.
    pose proof (replace_length lemma a c) as Hle.
    split; [lia|]. exists a. split; [done|].
    unfold commit, no_affix. cbn [base_is_word_val base_val has_affix_val affix_val].
    case_bool_decide; [right|by left].
    exists (Py.replace lemma a "" c). repeat split; try done; lia. }
  pose proof (find_qualifies (qualifies_suffix lemma) neg_suffix) as Hs.
  destruct (find (qualifies_suffix lemma) neg_suffix) as [s|].
  { right. destruct Hs as [Hin Hq].
    apply andb_true_iff in Hq as [_ Hq]. apply Nat.ltb_lt in Hq.
    apply Hcommit; [|done]. apply elem_of_app. by left. }
  pose proof (find_qualifies (qualifies_prefix lemma) neg_prefix) as Hp.
  destruct (find (qualifies_prefix lemma) neg_prefix) as [p|]; [|by left].
  right. destruct Hp as [Hin Hq].
  apply andb_true_iff in Hq as [_ Hq]. apply Nat.ltb_lt in Hq.
  apply Hcommit; [|lia]. apply elem_of_app. by right.
Qed.

(** X9.  When no suffix is committed, a recorded affix is a prefix that has
    really been cut off the front: the lemma is that prefix followed by a
    stem of more than three characters, and the base fields record that stem
    exactly when it is a vocabulary word. *)
Theorem prefix_commit_cuts_front (lemma : string)
        (neg_prefix neg_suffix : list string) (vocab : gset string) :
  Forall (λ s, qualifies_suffix lemma s = false) neg_suffix →
  has_affix_val (affix_features_of lemma neg_prefix neg_suffix vocab)
  = VInt 1 →
  ∃ p stem,
    p ∈ neg_prefix
    ∧ lemma = p +:+ stem
    ∧ 3 < Py.len stem
    ∧ affix_features_of lemma neg_prefix neg_suffix vocab
      = if decide (stem ∈ vocab)
        then {| has_affix_val := VInt 1; affix_val := p;
                base_is_word_val := VInt 1; base_val := stem |}
        else {| has_affix_val := VInt 1; affix_val := p;
                base_is_word_val := VInt 0; base_val := "" |}.
Proof.
  intros Hns Hhas.
  destruct (decide (lemma = "")) as [->|Hne]; [done|].
  rewrite affix_features_of_find in Hhas |- * by done.
  pose proof (find_qualifies (qualifies_suffix lemma) neg_suffix) as Hs.
  destruct (find (qualifies_suffix lemma) neg_suffix) as [s|].
  { destruct Hs as [Hin Hq].
    apply (Forall_forall (λ s, qualifies_suffix lemma s = false)) with (x := s)
      in Hns; [congruence|done]. }
  pose proof (find_qualifies (qualifies_prefix lemma) neg_prefix) as Hp.
  destruct (find (qualifies_prefix lemma) neg_prefix) as [p|]; [|done].
  destruct Hp as [Hin Hq].
  apply andb_true_iff in Hq as [Hstarts Hlong]. apply Nat.ltb_lt in Hlong.
  destruct (prefix_app p lemma Hstarts) as [stem ->].
  rewrite replace_first_prefix in Hlong |- *.
  exists p, stem. repeat split; try done.
  unfold commit. case_bool_decide;
    [by rewrite decide_True by done | by rewrite decide_False by done].
Qed.

Lemma prefix_commit_cuts_front_witness :
  Forall (λ s, qualifies_suffix "unhappy" s = false) neg_suffix_main
  ∧ has_affix_val
      (affix_features_of "unhappy" neg_prefix_main neg_suffix_main
         {["happy"]})
    = VInt 1
  ∧ ∃ p stem,
      p ∈ neg_prefix_main
      ∧ "unhappy" = p +:+ stem
      ∧ 3 < Py.len stem
      ∧ affix_features_of "unhappy" neg_prefix_main neg_suffix_main
          {["happy"]}
        = if decide (stem ∈ ({["happy"]} : gset string))
          then {| has_affix_val := VInt 1; affix_val := p;
                  base_is_word_val := VInt 1; base_val := stem |}
          else {| has_affix_val := VInt 1; affix_val := p;
                  base_is_word_val := VInt 0; base_val := "" |}.
Proof.
  assert (H1 : Forall (λ s, qualifies_suffix "unhappy" s = false)
                 neg_suffix_main) by (repeat constructor).
  assert (H2 : has_affix_val
                 (affix_features_of "unhappy" neg_prefix_main neg_suffix_main
                    {["happy"]}) = VInt 1) by (vm_compute; reflexivity).
  split; [exact H1|]. split; [exact H2|].
  exact (prefix_commit_cuts_front "unhappy" neg_prefix_main neg_suffix_main
           {["happy"]} H1 H2).
Defined.

(** X10.  The vocabulary decides base_is_word and base only: has_affix and
    affix are the same for every vocabulary. *)
Theorem affix_independent_of_vocabulary (lemma : string)
        (neg_prefix neg_suffix : list string) (vocab vocab' : gset string) :
  has_affix_val (affix_features_of lemma neg_prefix neg_suffix vocab)
  = has_affix_val (affix_features_of lemma neg_prefix neg_suffix vocab')
  ∧ affix_val (affix_features_of lemma neg_prefix neg_suffix vocab)
    = affix_val (affix_features_of lemma neg_prefix neg_suffix vocab').
Proof.
  destruct (decide (lemma = "")) as [->|Hne]; [done|].
  rewrite !affix_features_of_find by done.
  destruct (find (qualifies_suffix lemma) neg_suffix) as [s|].
  { destruct (commit_has_affix s (Py.replace lemma s "" None) vocab no_affix)
      as [-> ->].
    by destruct (commit_has_affix s (Py.replace lemma s "" None) vocab'
                   no_affix) as [-> ->]. }
  destruct (find (qualifies_prefix lemma) neg_prefix) as [p|]; [|done].
  destruct (commit_has_affix p (Py.replace lemma p "" (Some 1)) vocab
              no_affix) as [-> ->].
  by destruct (commit_has_affix p (Py.replace lemma p "" (Some 1)) vocab'
                 no_affix) as [-> ->].
Qed.

(** X11.  has_affix is 1 exactly when some suffix of the set ends the lemma
    and leaves more than two characters once all its occurrences are
    deleted, or some prefix of the set starts the lemma and leaves more than
    three characters once its first occurrence is deleted. *)
Theorem has_affix_iff (lemma : string)
        (neg_prefix neg_suffix : list string) (vocab : gset string) :
  has_affix_val (affix_features_of lemma neg_prefix neg_suffix vocab)
  = VInt 1
  ↔ (∃ s, s ∈ neg_suffix ∧ Py.endswith lemma s = true
          ∧ 2 < Py.len (Py.replace lemma s "" None))
    ∨ (∃ p, p ∈ neg_prefix ∧ Py.startswith lemma p = true
            ∧ 3 < Py.len (Py.replace lemma p "" (Some 1))).
Proof.
  assert (Hqs : ∀ s, qualifies_suffix lemma s = true
                     ↔ Py.endswith lemma s = true
                       ∧ 2 < Py.len (Py.replace lemma s "" None)).
  { intros s. unfold qualifies_suffix.
    by rewrite andb_true_iff, Nat.ltb_lt. }
  assert (Hqp : ∀ p, qualifies_prefix lemma p = true
                     ↔ Py.startswith lemma p = true
                       ∧ 3 < Py.len (Py.replace lemma p "" (Some 1))).
  { intros p. unfold qualifies_prefix.
    by rewrite andb_true_iff, Nat.ltb_lt. }
  destruct (decide (lemma = "")) as [->|Hne].
  { split; [done|].
    intros [(s & _ & _ & H)|(p & _ & _ & H)];
      rewrite replace_of_empty in H; simpl in H; lia. }
  rewrite affix_features_of_find by done.
  pose proof (find_qualifies (qualifies_suffix lemma) neg_suffix) as Hs.
  destruct (find (qualifies_suffix lemma) neg_suffix) as [s|].
  { destruct Hs as [Hin Hq]. apply Hqs in Hq.
    split; [intros _; left; by exists s|intros _].
    apply commit_has_affix. }
  pose proof (find_qualifies (qualifies_prefix lemma) neg_prefix) as Hp.
  destruct (find (qualifies_prefix lemma) neg_prefix) as [p|].
  { destruct Hp as [Hin Hq]. apply Hqp in Hq.
    split; [intros _; right; by exists p|intros _].
    apply commit_has_affix. }
  split; [done|].
  intros [(s & Hin & Hq)|(p & Hin & Hq)].
  - apply Hqs in Hq.
    apply (Forall_forall (λ s, qualifies_suffix lemma s = false)) with (x := s)
      in Hs; [congruence|done].
  - apply Hqp in Hq.
    apply (Forall_forall (λ s, qualifies_prefix lemma s = false)) with (x := p)
      in Hp; [congruence|done].
Qed.

(** X12.  The four result lists have one entry per lemma, and the entries
    at a position are those the analyser gives for the lemma at that position
    taken alone: no state is carried from one lemma to the next. *)
Theorem affix_lists_aligned (lemmas : list string)
        (neg_prefix neg_suffix : list string) (vocab : gset string) :
  ∃ h a w b,
    get_affixal_and_base_features lemmas neg_prefix neg_suffix vocab
    = (h, a, w, b)
    ∧ length h = length lemmas ∧ length a = length lemmas
    ∧ length w = length lemmas ∧ length b = length lemmas
    ∧ ∀ i lemma, lemmas !! i = Some lemma →
        ∃ hi ai wi bi,
          h !! i = Some hi ∧ a !! i = Some ai
          ∧ w !! i = Some wi ∧ b !! i = Some bi
          ∧ get_affixal_and_base_features [lemma] neg_prefix neg_suffix vocab
            = ([hi], [ai], [wi], [bi]).
Proof.
  rewrite get_affixal_and_base_features_map.
  do 4 eexists. split; [reflexivity|].
  rewrite !length_fmap. repeat split; try done.
  intros i lemma Hi. do 4 eexists.
  rewrite !list_lookup_fmap, Hi. simpl.
  repeat split; try reflexivity.
Qed.

Lemma string_length_app (p t : string) :
  String.length (p +:+ t) = String.length p + String.length t.
Proof. induction p as [|c p IH]; simpl; [done|]. by rewrite IH. Qed.

Lemma substring_app_skip (p t : string) (n m : nat) :
  String.substring (String.length p + n) m (p +:+ t) = String.substring n m t.
Proof. induction p as [|c p IH]; simpl; [done|]. apply IH. Qed.

Lemma substring_all (s : string) :
  String.substring 0 (String.length s) s = s.
Proof. induction s as [|c s IH]; simpl; [done|]. by rewrite IH. Qed.

Lemma substring_split (s : string) (n : nat) :
  n ≤ String.length s →
  s = String.substring 0 n s
      +:+ String.substring n (String.length s - n) s.
Proof.
  revert s. induction n as [|n IH]; intros s Hn.
  - rewrite Nat.sub_0_r, substring_all. by destruct s.
  - destruct s as [|c s]; [simpl in Hn; lia|].
    simpl in *.
    change (String c ?x +:+ ?y) with (String c (x +:+ y)).
    f_equal. apply IH. lia.
Qed.

(** A string that ends with [t] is something followed by [t]. *)
Lemma endswith_app (s t : string) :
  Py.endswith s t = true → ∃ p, s = p +:+ t.
Proof.
  unfold Py.endswith, Py.len. intros H.
  apply andb_true_iff in H as [Hle Heq].
  apply Nat.leb_le in Hle. apply String.eqb_eq in Heq.
  exists (String.substring 0 (String.length s - String.length t) s).
  pose proof (substring_split s (String.length s - String.length t))
    as Hsplit.
  replace (String.length s - (String.length s - String.length t))
    with (String.length t) in Hsplit by lia.
  rewrite Heq in Hsplit. apply Hsplit. lia.
Qed.

(** Whether [p +:+ t] ends with a string no longer than [t] is decided by
    [t] alone. *)
Lemma endswith_app_r (p t t' : string) :
  Py.len t' ≤ Py.len t →
  Py.endswith (p +:+ t) t' = Py.endswith t t'.
Proof.
  unfold Py.endswith, Py.len. intros Hle.
  rewrite string_length_app.
  rewrite (proj2 (Nat.leb_le _ _)) by lia.
  rewrite (proj2 (Nat.leb_le _ _)) by lia.
  replace (String.length p + String.length t - String.length t')
    with (String.length p + (String.length t - String.length t')) by lia.
  by rewrite substring_app_skip.
Qed.

(** Of the suffixes of [main], a lemma ends with at most one. *)
Lemma main_suffix_exclusive (lemma x y : string) :
  x ∈ neg_suffix_main → y ∈ neg_suffix_main →
  Py.endswith lemma x = true → Py.endswith lemma y = true → x = y.
Proof.
  unfold neg_suffix_main. intros Hx Hy Ex Ey.
  repeat (apply elem_of_cons in Hx as [->|Hx]);
    [| | |by apply elem_of_nil in Hx];
    (repeat (apply elem_of_cons in Hy as [->|Hy]);
       [| | |by apply elem_of_nil in Hy]);
    try reflexivity; exfalso;
    first
      [ apply endswith_app in Ex as [p ->];
        rewrite endswith_app_r in Ey by (vm_compute; lia);
        vm_compute in Ey; discriminate
      | apply endswith_app in Ey as [p ->];
        rewrite endswith_app_r in Ex by (vm_compute; lia);
        vm_compute in Ex; discriminate ].
Qed.

(** Of the prefixes of [main], a lemma starts with at most one. *)
Lemma main_prefix_exclusive (lemma x y : string) :
  x ∈ neg_prefix_main → y ∈ neg_prefix_main →
  Py.startswith lemma x = true → Py.startswith lemma y = true → x = y.
Proof.
  unfold neg_prefix_main, Py.startswith. intros Hx Hy Ex Ey.
  apply prefix_app in Ex as [t ->].
  repeat (apply elem_of_cons in Hx as [->|Hx]);
    [| | | | | |by apply elem_of_nil in Hx];
    (repeat (apply elem_of_cons in Hy as [->|Hy]);
       [| | | | | |by apply elem_of_nil in Hy]);
    try reflexivity; vm_compute in Ey; discriminate.
Qed.

(** The first match does not depend on the order of a list in which at most
    one element matches. *)
Lemma find_unique_perm {A} (P : A → bool) (l l' : list A) :
  (∀ x y, x ∈ l → y ∈ l → P x = true → P y = true → x = y) →
  l ≡ₚ l' → find P l = find P l'.
Proof.
  intros Huniq Hperm.
  pose proof (find_qualifies P l) as H1.
  pose proof (find_qualifies P l') as H2.
  destruct (find P l) as [x|], (find P l') as [y|]; try done.
  - destruct H1 as [Hx Px], H2 as [Hy Py]. f_equal.
    apply Huniq; try done. by rewrite Hperm.
  - destruct H1 as [Hx Px]. rewrite Hperm in Hx.
    apply (Forall_forall (λ x, P x = false)) with (x := x) in H2;
      [congruence|done].
  - destruct H2 as [Hy Py]. rewrite <- Hperm in Hy.
    apply (Forall_forall (λ x, P x = false)) with (x := y) in H1;
      [congruence|done].
Qed.

(** X13.  For the two affix sets built in [main] the iteration order of the
    sets is irrelevant: a lemma can end with at most one of "less",
    "lessness", "lessly" and start with at most one of "dis", "im", "in",
    "ir", "un", "non", so every order of the two sets gives the same four
    values, for every lemma and vocabulary. *)
Theorem main_sets_order_irrelevant (lemma : string)
        (neg_prefix neg_suffix : list string) (vocab : gset string) :
  neg_suffix ≡ₚ neg_suffix_main →
  neg_prefix ≡ₚ neg_prefix_main →
  affix_features_of lemma neg_prefix neg_suffix vocab
  = affix_features_of lemma neg_prefix_main neg_suffix_main vocab.
Proof.
  intros Hs Hp.
  destruct (decide (lemma = "")) as [->|Hne]; [done|].
  rewrite !affix_features_of_find by done.
  rewrite (find_unique_perm (qualifies_suffix lemma)
             neg_suffix_main neg_suffix), (find_unique_perm
             (qualifies_prefix lemma) neg_prefix_main neg_prefix);
    try done.
  - intros x y Hx Hy Qx Qy.
    apply andb_true_iff in Qx as [Qx _]. apply andb_true_iff in Qy as [Qy _].
    by apply (main_prefix_exclusive lemma).
  - intros x y Hx Hy Qx Qy.
    apply andb_true_iff in Qx as [Qx _]. apply andb_true_iff in Qy as [Qy _].
    by apply (main_suffix_exclusive lemma).
Qed.

Lemma main_sets_order_irrelevant_witness :
  ["lessly"; "lessness"; "less"] ≡ₚ neg_suffix_main
  ∧ ["non"; "un"; "ir"; "in"; "im"; "dis"] ≡ₚ neg_prefix_main
  ∧ affix_features_of "careless" ["non"; "un"; "ir"; "in"; "im"; "dis"]
      ["lessly"; "lessness"; "less"] {["care"]}
    = affix_features_of "careless" neg_prefix_main neg_suffix_main {["care"]}.
Proof.
  assert (H1 : ["lessly"; "lessness"; "less"] ≡ₚ neg_suffix_main)
    by (unfold neg_suffix_main; solve_Permutation).
  assert (H2 : ["non"; "un"; "ir"; "in"; "im"; "dis"] ≡ₚ neg_prefix_main)
    by (unfold neg_prefix_main; solve_Permutation).
  split; [exact H1|]. split; [exact H2|].
  exact (main_sets_order_irrelevant "careless" _ _ {["care"]} H1 H2).
Defined.

(** ** POS categoriser: range of the result *)

Lemma pos_category_of_range (tag : string) :
  (tag = "" ∧ pos_category_of tag = "")
  ∨ (tag ≠ ""
     ∧ pos_category_of tag
       ∈ ["ADJ"; "NN"; "ADV"; "PRO"; "VERB"; "PUNCT"; "OTH"]).
Proof.
  destruct tag as [|c rest]; [by left|]. right. split; [done|].
  unfold pos_category_of.
  repeat (case_bool_decide; [by apply (bool_decide_unpack _)|]).
  destruct (Py.char_in c Py.punctuation); by apply (bool_decide_unpack _).
Qed.

(** X14.  The categoriser returns one category per tag; the category is the
    empty string exactly for the empty tag, and for a non-empty tag it is
    one of ADJ, NN, ADV, PRO, VERB, PUNCT, OTH (the verb tags give "VERB",
    never "VB"). *)
Theorem pos_category_range (pos_tags : list string) :
  Forall2 (λ tag category,
             (tag = "" ∧ category = "")
             ∨ (tag ≠ ""
                ∧ category
                  ∈ ["ADJ"; "NN"; "ADV"; "PRO"; "VERB"; "PUNCT"; "OTH"]))
          pos_tags (generate_pos_category pos_tags)
  ∧ generate_pos_category vb = ["VERB"; "VERB"; "VERB"; "VERB"; "VERB"; "VERB"].
Proof.
  split; [|reflexivity].
  rewrite generate_pos_category_map.
  induction pos_tags as [|tag tags IH]; [constructor|].
  simpl. constructor; [apply pos_category_of_range | apply IH].
Qed.

(** X15.  A tag is categorised PUNCT exactly when its first character is a
    punctuation character: none of the tags of the five fixed lists starts
    with one, so what follows the first character does not matter. *)
Theorem punct_iff_leading_punctuation (c : Ascii.ascii) (rest : string) :
  generate_pos_category [String c rest] = ["PUNCT"]
  ↔ Py.char_in c Py.punctuation = true.
Proof.
  rewrite generate_pos_category_map.
  change (pos_category_of <$> [String c rest])
    with [pos_category_of (String c rest)].
  unfold pos_category_of, adj, nn, adv, pro, vb.
  split.
  - repeat (case_bool_decide; [discriminate|]).
    by destruct (Py.char_in c Py.punctuation).
  - intros Hc.
    repeat (case_bool_decide as H;
            [exfalso;
             repeat (apply elem_of_cons in H as [H|H];
                     [injection H as -> _; vm_compute in Hc; discriminate|]);
             by apply elem_of_nil in H
            |clear H]).
    by rewrite Hc.
Qed.

(** ** Output path *)

Lemma replace_scan_absent (old new : string) (n : nat) (s : string) :
  contains s old = false → Py.replace_scan old new 0 n s = s.
Proof.
  induction s as [|c s IH]; intros H; [done|].
  cbn [contains] in H. apply orb_false_iff in H as [Hp Hrest].
  cbn [Py.replace_scan]. destruct n as [|n].
  - by rewrite replace_scan_copy.
  - rewrite Hp. by rewrite IH.
Qed.

(** X16.  When the input path does not contain "_preprocessed.txt", the
    output path is the input path itself: the features are then written over
    the input file. *)
Theorem output_file_same_as_input (input_file : string) :
  contains input_file "_preprocessed.txt" = false →
  output_file input_file = input_file.
Proof.
  intros H. unfold output_file, Py.replace. simpl.
  by apply replace_scan_absent.
Qed.

Lemma output_file_same_as_input_witness :
  contains "data/dev.txt" "_preprocessed.txt" = false
  ∧ output_file "data/dev.txt" = "data/dev.txt".
Proof.
  split; [reflexivity|].
  apply (output_file_same_as_input "data/dev.txt"). reflexivity.
Defined.

Lemma prefix_truncate (p u v : string) :
  String.length p ≤ String.length u →
  String.prefix p (u +:+ v) = String.prefix p u.
Proof.
  revert u. induction p as [|a p IH]; intros u Hlen.
  - by destruct u, v.
  - destruct u as [|b u]; [simpl in Hlen; lia|]. simpl.
    destruct (Ascii.ascii_dec a b); [|done]. apply IH. simpl in Hlen. lia.
Qed.

Lemma string_app_assoc (a b c : string) :
  (a +:+ b) +:+ c = a +:+ (b +:+ c).
Proof.
  induction a as [|x a IH]; [done|].
  change (String x ((a +:+ b) +:+ c) = String x (a +:+ (b +:+ c))).
  by rewrite IH.
Qed.

Lemma replace_scan_final_occurrence (stem : string) (n : nat) :
  contains (stem +:+ "_preprocessed.tx") "_preprocessed.txt" = false →
  Py.replace_scan "_preprocessed.txt" "_features.txt" 0 (S n)
    (stem +:+ "_preprocessed.txt")
  = stem +:+ "_features.txt".
Proof.
  induction stem as [|c stem IH]; intros H; [reflexivity|].
  change (String c stem +:+ "_preprocessed.tx")
    with (String c (stem +:+ "_preprocessed.tx")) in H.
  cbn [contains] in H. apply orb_false_iff in H as [Hp Hrest].
  change (String c stem +:+ "_preprocessed.txt")
    with (String c (stem +:+ "_preprocessed.txt")).
  change (String c stem +:+ "_features.txt")
    with (String c (stem +:+ "_features.txt")).
  cbn [Py.replace_scan].
  assert (Hno : String.prefix "_preprocessed.txt"
                  (String c (stem +:+ "_preprocessed.txt")) = false).
  { change "_preprocessed.txt" with ("_preprocessed.tx" +:+ "t") at 2.
    rewrite <- string_app_assoc.
    change (String c ((stem +:+ "_preprocessed.tx") +:+ "t"))
      with (String c (stem +:+ "_preprocessed.tx") +:+ "t").
    rewrite prefix_truncate; [done|].
    cbn [String.length]. rewrite string_length_app. simpl. lia. }
  rewrite Hno. by rewrite IH.
Qed.

(** X17.  For an input path that ends with "_preprocessed.txt", with no
    further occurrence of that text starting earlier in the path, the output
    path is the input path with that ending replaced by "_features.txt". *)
Theorem output_file_renames_ending (stem : string) :
  contains (stem +:+ "_preprocessed.tx") "_preprocessed.txt" = false →
  output_file (stem +:+ "_preprocessed.txt") = stem +:+ "_features.txt".
Proof.
  intros H. unfold output_file, Py.replace.
  cbn [default]. by apply replace_scan_final_occurrence.
Qed.

Lemma output_file_renames_ending_witness :
  contains ("../my_data/dev-simple.v2" +:+ "_preprocessed.tx")
           "_preprocessed.txt" = false
  ∧ output_file ("../my_data/dev-simple.v2" +:+ "_preprocessed.txt")
    = "../my_data/dev-simple.v2" +:+ "_features.txt".
Proof.
  split; [reflexivity|].
  apply (output_file_renames_ending "../my_data/dev-simple.v2").
  reflexivity.
Defined.

(** ** Feature table: what reaches the output *)

Lemma extract_nonblank (elements prev next : list string) (j : nat)
      (e : string) :
  extract_previous_and_next elements = Some (prev, next) →
  elements !! j = Some e → e ≠ "" →
  nth j prev "" ≠ "" ∧ nth j next "" ≠ "".
Proof.
  intros Hrun He Hne.
  assert (Hnb : elements !! j ≠ Some "") by (rewrite He; congruence).
  assert (Hj : j < length elements) by (by eapply lookup_lt_Some).
  destruct (extract_closed_form elements)
    as (prev' & next' & Hrun' & _ & _ & Hp & Hn).
  rewrite Hrun in Hrun'. injection Hrun' as <- <-.
  rewrite (nth_lookup_Some _ _ _ _ (Hp j Hj)).
  rewrite (nth_lookup_Some _ _ _ _ (Hn j Hj)).
  rewrite previous_value_nonblank by done.
  split; [apply raw_previous_nonempty|].
  unfold next_value. rewrite eos_pending_nonblank by done.
  destruct (elements !! S j) as [x|]; [|done].
  by destruct (String.eqb_spec x "").
Qed.

Lemma lower_nonempty (s : string) : s ≠ "" → Py.lower s ≠ "".
Proof. by destruct s. Qed.

Lemma affix_flags_binary (lemma : string)
      (neg_prefix neg_suffix : list string) (vocab : gset string) :
  lemma ≠ "" →
  let f := affix_features_of lemma neg_prefix neg_suffix vocab in
  (has_affix_val f = VInt 0 ∨ has_affix_val f = VInt 1)
  ∧ (base_is_word_val f = VInt 0 ∨ base_is_word_val f = VInt 1).
Proof.
  intros Hne f. subst f. rewrite affix_features_of_find by done.
  assert (Hc : ∀ a b,
    (has_affix_val (commit a b vocab no_affix) = VInt 0
     ∨ has_affix_val (commit a b vocab no_affix) = VInt 1)
    ∧ (base_is_word_val (commit a b vocab no_affix) = VInt 0
       ∨ base_is_word_val (commit a b vocab no_affix) = VInt 1)).
  { intros a b. unfold commit. case_bool_decide; simpl; auto. }
  destruct (find (qualifies_suffix lemma) neg_suffix); [apply Hc|].
  destruct (find (qualifies_prefix lemma) neg_prefix); [apply Hc|].
  simpl. auto.
Qed.

(** X18.  When every input row with a non-empty book field also has a
    non-empty token, lemma and POS tag, no emitted row carries the empty
    placeholder of a blank row: its token, lemma, POS category and its four
    neighbour values are non-empty, and has_affix and base_is_word are 0 or
    1. *)
Theorem emitted_rows_have_no_placeholder (input_data : list input_row)
        (neg_prefix neg_suffix : list string) (vocab : gset string) :
  Forall (λ r, in_book r ≠ "" →
               in_token r ≠ "" ∧ in_lemma r ≠ "" ∧ in_pos_tag r ≠ "")
         input_data →
  ∃ output,
    write_features input_data neg_prefix neg_suffix vocab = Some output
    ∧ Forall (λ row,
                book row ≠ "" ∧ token row ≠ "" ∧ lemma row ≠ ""
                ∧ pos_category row ≠ ""
                ∧ prev_token row ≠ "" ∧ next_token row ≠ ""
                ∧ prev_lemma row ≠ "" ∧ next_lemma row ≠ ""
                ∧ (has_affix row = VInt 0 ∨ has_affix row = VInt 1)
                ∧ (base_is_word row = VInt 0 ∨ base_is_word row = VInt 1))
             output.
Proof.
  intros Hwf.
  destruct (write_features_rows input_data neg_prefix neg_suffix vocab)
    as (pt & nt & pl & nl & Htok & Hlem & Hout).
  eexists. split; [exact Hout|].
  apply Forall_forall. intros row Hrow.
  apply list_elem_of_filter in Hrow as [Hbook Hrow].
  apply elem_of_lookup_imap in Hrow as (i & r & -> & Hr).
  unfold feature_row_at in *. simpl in *.
  destruct (Forall_lookup_1 _ _ _ _ Hwf Hr Hbook) as (Ht & Hl & Hp).
  assert (Hti : (Py.lower <$> (in_token <$> input_data)) !! i
                = Some (Py.lower (in_token r)))
    by (by rewrite !list_lookup_fmap, Hr).
  assert (Hli : (Py.lower <$> (in_lemma <$> input_data)) !! i
                = Some (Py.lower (in_lemma r)))
    by (by rewrite !list_lookup_fmap, Hr).
  destruct (extract_nonblank _ _ _ _ _ Htok Hti (lower_nonempty _ Ht)).
  destruct (extract_nonblank _ _ _ _ _ Hlem Hli (lower_nonempty _ Hl)).
  destruct (affix_flags_binary (Py.lower (in_lemma r)) neg_prefix neg_suffix
              vocab (lower_nonempty _ Hl)).
  repeat split; try done; try (by apply lower_nonempty).
  destruct (pos_category_of_range (in_pos_tag r)) as [[? _]|[_ Hin]];
    [done|].
  intros Heq. rewrite Heq in Hin.
  by apply (bool_decide_pack _), Is_true_true in Hin.
Qed.

Lemma emitted_rows_have_no_placeholder_witness :
  Forall (λ r, in_book r ≠ "" →
               in_token r ≠ "" ∧ in_lemma r ≠ "" ∧ in_pos_tag r ≠ "")
         [InputRow "b" "1" "0" "Unhappy" "Unhappy" "JJ" "B";
          InputRow "" "" "" "" "" "" ""]
  ∧ ∃ output,
      write_features [InputRow "b" "1" "0" "Unhappy" "Unhappy" "JJ" "B";
                      InputRow "" "" "" "" "" "" ""]
        neg_prefix_main neg_suffix_main {["happy"]} = Some output
      ∧ Forall (λ row,
                  book row ≠ "" ∧ token row ≠ "" ∧ lemma row ≠ ""
                  ∧ pos_category row ≠ ""
                  ∧ prev_token row ≠ "" ∧ next_token row ≠ ""
                  ∧ prev_lemma row ≠ "" ∧ next_lemma row ≠ ""
                  ∧ (has_affix row = VInt 0 ∨ has_affix row = VInt 1)
                  ∧ (base_is_word row = VInt 0 ∨ base_is_word row = VInt 1))
               output.
Proof.
  assert (H : Forall (λ r, in_book r ≠ "" →
                 in_token r ≠ "" ∧ in_lemma r ≠ "" ∧ in_pos_tag r ≠ "")
                [InputRow "b" "1" "0" "Unhappy" "Unhappy" "JJ" "B";
                 InputRow "" "" "" "" "" "" ""]).
  { repeat constructor; simpl; try discriminate. all: by intros []. }
  split; [exact H|].
  exact (emitted_rows_have_no_placeholder _ neg_prefix_main neg_suffix_main
           {["happy"]} H).
Defined.

Lemma feature_rows_app (p1 n1 q1 m1 p2 n2 q2 m2 : list string)
      (neg_prefix neg_suffix : list string) (vocab : gset string)
      (t1 t2 : list input_row) (blank : input_row) :
  length p1 = length t1 → length n1 = length t1 →
  length q1 = length t1 → length m1 = length t1 →
  in_book blank = "" →
  filter (λ r, book r ≠ "")
    (imap (feature_row_at (p1 ++ "" :: p2) (n1 ++ "" :: n2)
             (q1 ++ "" :: q2) (m1 ++ "" :: m2) neg_prefix neg_suffix vocab)
          (t1 ++ blank :: t2))
  = filter (λ r, book r ≠ "")
      (imap (feature_row_at p1 n1 q1 m1 neg_prefix neg_suffix vocab) t1)
    ++ filter (λ r, book r ≠ "")
         (imap (feature_row_at p2 n2 q2 m2 neg_prefix neg_suffix vocab) t2).
Proof.
  intros Hp Hn Hq Hm Hblank.
  rewrite imap_app, imap_cons, filter_app.
  rewrite filter_cons_False by (simpl; rewrite Hblank; by intros []).
  f_equal; f_equal; apply imap_ext; intros i r Hr; unfold feature_row_at.
  - assert (Hi : i < length t1) by (by eapply lookup_lt_Some).
    by rewrite !app_nth1 by lia.
  - simpl.
    replace (length t1 + S i) with (length p1 + S i) at 1 by lia.
    replace (length t1 + S i) with (length n1 + S i) at 1 by lia.
    replace (length t1 + S i) with (length q1 + S i) at 1 by lia.
    replace (length t1 + S i) with (length m1 + S i) at 1 by lia.
    by rewrite !app_nth2_plus.
Qed.

(** X19.  The table is built sentence by sentence.  When a table whose last
    row has a non-empty token and lemma is followed by a blank row (empty
    book, token and lemma) and by a non-empty table, the output is the output
    for the first table followed by the output for the second: the blank row
    is dropped and no feature of a row depends on a row of the other
    table. *)
Theorem table_built_per_sentence (t1 t2 : list input_row)
        (last_row blank : input_row)
        (neg_prefix neg_suffix : list string) (vocab : gset string) :
  last t1 = Some last_row →
  in_token last_row ≠ "" → in_lemma last_row ≠ "" →
  in_book blank = "" → in_token blank = "" → in_lemma blank = "" →
  t2 ≠ [] →
  ∃ o1 o2,
    write_features t1 neg_prefix neg_suffix vocab = Some o1
    ∧ write_features t2 neg_prefix neg_suffix vocab = Some o2
    ∧ write_features (t1 ++ blank :: t2) neg_prefix neg_suffix vocab
      = Some (o1 ++ o2).
Proof.
  intros Hlast Htok Hlem Hbook Hbt Hbl Ht2.
  assert (Hcol : ∀ f : input_row → string, f blank = "" →
            Py.lower <$> (f <$> (t1 ++ blank :: t2))
            = (Py.lower <$> (f <$> t1)) ++ "" :: (Py.lower <$> (f <$> t2))).
  { intros f Hf. rewrite !fmap_app, !fmap_cons, Hf. done. }
  assert (Hlast' : ∀ f : input_row → string,
            last (Py.lower <$> (f <$> t1)) = Some (Py.lower (f last_row))).
  { intros f. by rewrite !fmap_last, Hlast. }
  assert (Hne : ∀ f : input_row → string, Py.lower <$> (f <$> t2) ≠ []).
  { intros f. destruct t2; [done|]. by simpl. }
  destruct (extract_app_blank _ _ _ (Hlast' in_token)
              (lower_nonempty _ Htok) (Hne in_token))
    as (p1 & n1 & p2 & n2 & Ht1 & Ht2' & Ht12).
  destruct (extract_app_blank _ _ _ (Hlast' in_lemma)
              (lower_nonempty _ Hlem) (Hne in_lemma))
    as (q1 & m1 & q2 & m2 & Hl1 & Hl2 & Hl12).
  rewrite <- (Hcol in_token Hbt) in Ht12.
  rewrite <- (Hcol in_lemma Hbl) in Hl12.
  destruct (write_features_rows t1 neg_prefix neg_suffix vocab)
    as (a1 & a2 & a3 & a4 & E1 & E2 & Hout1).
  rewrite Ht1 in E1. rewrite Hl1 in E2.
  injection E1 as <- <-. injection E2 as <- <-.
  destruct (write_features_rows t2 neg_prefix neg_suffix vocab)
    as (b1 & b2 & b3 & b4 & E1 & E2 & Hout2).
  rewrite Ht2' in E1. rewrite Hl2 in E2.
  injection E1 as <- <-. injection E2 as <- <-.
  destruct (write_features_rows (t1 ++ blank :: t2) neg_prefix neg_suffix
              vocab) as (c1 & c2 & c3 & c4 & E1 & E2 & Hout).
  rewrite Ht12 in E1. rewrite Hl12 in E2.
  injection E1 as <- <-. injection E2 as <- <-.
  destruct (extract_returns_same_length (Py.lower <$> (in_token <$> t1)))
    as (x1 & x2 & E1 & Hx1 & Hx2).
  rewrite Ht1 in E1. injection E1 as <- <-.
  destruct (extract_returns_same_length (Py.lower <$> (in_lemma <$> t1)))
    as (y1 & y2 & E2 & Hy1 & Hy2).
  rewrite Hl1 in E2. injection E2 as <- <-.
  rewrite !length_fmap in Hx1, Hx2, Hy1, Hy2.
  eexists _, _. split; [exact Hout1|]. split; [exact Hout2|].
  rewrite Hout. f_equal. by apply feature_rows_app.
Qed.

Lemma table_built_per_sentence_witness :
  last [InputRow "b" "1" "0" "Careless" "careless" "JJ" "O"]
  = Some (InputRow "b" "1" "0" "Careless" "careless" "JJ" "O")
  ∧ ∃ o1 o2,
      write_features [InputRow "b" "1" "0" "Careless" "careless" "JJ" "O"]
        neg_prefix_main neg_suffix_main {["care"]} = Some o1
      ∧ write_features [InputRow "b" "2" "0" "Unhappy" "unhappy" "JJ" "O"]
          neg_prefix_main neg_suffix_main {["care"]} = Some o2
      ∧ write_features
          ([InputRow "b" "1" "0" "Careless" "careless" "JJ" "O"]
           ++ InputRow "" "" "" "" "" "" ""
              :: [InputRow "b" "2" "0" "Unhappy" "unhappy" "JJ" "O"])
          neg_prefix_main neg_suffix_main {["care"]}
        = Some (o1 ++ o2).
Proof.
  split; [reflexivity|].
  exact (table_built_per_sentence
           [InputRow "b" "1" "0" "Careless" "careless" "JJ" "O"]
           [InputRow "b" "2" "0" "Unhappy" "unhappy" "JJ" "O"]
           (InputRow "b" "1" "0" "Careless" "careless" "JJ" "O")
           (InputRow "" "" "" "" "" "" "")
           neg_prefix_main neg_suffix_main {["care"]}
           eq_refl ltac:(discriminate) ltac:(discriminate)
           eq_refl eq_refl eq_refl ltac:(discriminate)).
Defined.

(** ** Suffix pass: when the stem is the lemma without its ending *)

Lemma string_app_nil_r (s : string) : s +:+ "" = s.
Proof.
  induction s as [|c s IH]; [done|].
  change (String c (s +:+ "") = String c s). by rewrite IH.
Qed.

Lemma string_snoc_inv (s : string) :
  s ≠ "" → ∃ s' c, s = s' +:+ String c "".
Proof.
  induction s as [|a s IH]; [done|]. intros _.
  destruct s as [|b s]; [by exists "", a|].
  destruct IH as (s' & c & Hs); [done|].
  exists (String a s'), c.
  change (String a (String b s) = String a (s' +:+ String c "")).
  by rewrite Hs.
Qed.

Lemma substring_prefix_app (s t : string) :
  String.substring 0 (String.length s) (s +:+ t) = s.
Proof.
  induction s as [|c s IH]; [by destruct t|].
  change (String c s +:+ t) with (String c (s +:+ t)).
  simpl. by rewrite IH.
Qed.

Lemma replace_scan_skip_any (old new q t : string) (n : nat) :
  Py.replace_scan old new (Py.len q) n (q +:+ t)
  = Py.replace_scan old new 0 n t.
Proof.
  induction q as [|c q IH]; [done|].
  change (String c q +:+ t) with (String c (q +:+ t)).
  cbn [Py.replace_scan Py.len String.length]. apply IH.
Qed.

Lemma replace_scan_whole (old new : string) (n : nat) :
  old ≠ "" → Py.replace_scan old new 0 (S n) old = new.
Proof.
  intros Hne. destruct old as [|c rest]; [done|].
  assert (Hp : String.prefix (String c rest) (String c rest) = true).
  { rewrite <- (string_app_nil_r (String c rest)) at 2.
    apply prefix_app_true. }
  assert (Hskip : Py.replace_scan (String c rest) new
                    (Py.len (String c rest) - 1) n rest = "").
  { pose proof (replace_scan_skip_any (String c rest) new rest "" n) as H.
    rewrite string_app_nil_r in H.
    replace (Py.len (String c rest) - 1) with (Py.len rest)
      by (unfold Py.len; simpl; lia).
    rewrite H. by destruct n. }
  cbn [Py.replace_scan]. rewrite Hp, Hskip.
  apply string_app_nil_r.
Qed.

(** Replacing [old] in a string that ends with it, when no other occurrence
    starts before that ending, rewrites the ending and nothing else. *)
Lemma replace_scan_last_occurrence (old' : string) (c : Ascii.ascii)
      (new stem : string) (n : nat) :
  contains (stem +:+ old') (old' +:+ String c "") = false →
  Py.replace_scan (old' +:+ String c "") new 0 (S n)
    (stem +:+ (old' +:+ String c ""))
  = stem +:+ new.
Proof.
  set (old := old' +:+ String c "").
  assert (Hold : old ≠ "") by (unfold old; by destruct old').
  assert (Hlen : String.length old = S (String.length old')).
  { unfold old. rewrite string_length_app. simpl. lia. }
  induction stem as [|a stem IH]; intros H.
  - by apply replace_scan_whole.
  - change (String a stem +:+ old') with (String a (stem +:+ old')) in H.
    cbn [contains] in H. apply orb_false_iff in H as [Hp Hrest].
    change (String a stem +:+ old) with (String a (stem +:+ old)).
    change (String a stem +:+ new) with (String a (stem +:+ new)).
    cbn [Py.replace_scan].
    assert (Hno : String.prefix old (String a (stem +:+ old)) = false).
    { unfold old at 2. rewrite <- string_app_assoc.
      change (String a ((stem +:+ old') +:+ String c ""))
        with (String a (stem +:+ old') +:+ String c "").
      rewrite prefix_truncate; [done|].
      cbn [String.length]. rewrite string_length_app. lia. }
    rewrite Hno. by rewrite IH.
Qed.

Lemma endswith_self_app (p t : string) : Py.endswith (p +:+ t) t = true.
Proof.
  rewrite endswith_app_r by done.
  unfold Py.endswith, Py.len.
  rewrite Nat.leb_refl, Nat.sub_diag, substring_all. simpl.
  apply String.eqb_refl.
Qed.

Lemma suffix_stem_unique_occurrence (lemma suffix : string) :
  suffix ≠ "" →
  Py.endswith lemma suffix = true →
  contains (but_last lemma) suffix = false →
  Py.replace lemma suffix "" None = spec_trailing_stem lemma suffix
  ∧ lemma = spec_trailing_stem lemma suffix +:+ suffix.
Proof.
  intros Hne Hends Hocc.
  destruct (endswith_app _ _ Hends) as [stem ->].
  destruct (string_snoc_inv suffix Hne) as (old' & c & ->).
  assert (Hstem : spec_trailing_stem (stem +:+ (old' +:+ String c ""))
                    (old' +:+ String c "") = stem).
  { unfold spec_trailing_stem, Py.len. rewrite string_length_app.
    replace (String.length stem + String.length (old' +:+ String c "")
             - String.length (old' +:+ String c ""))
      with (String.length stem) by lia.
    apply substring_prefix_app. }
  rewrite Hstem. split; [|done].
  assert (Hbl : but_last (stem +:+ (old' +:+ String c "")) = stem +:+ old').
  { unfold but_last, Py.len. rewrite <- string_app_assoc.
    rewrite string_length_app. simpl.
    replace (String.length (stem +:+ old') + 1 - 1)
      with (String.length (stem +:+ old')) by lia.
    apply substring_prefix_app. }
  rewrite Hbl in Hocc.
  unfold Py.replace. cbn [default].
  destruct (old' +:+ String c "") as [|x rest] eqn:Hs;
    [by destruct old'|].
  rewrite <- Hs in *.
  rewrite replace_scan_last_occurrence by done.
  apply string_app_nil_r.
Qed.

(** X20.  When the lemma ends with a non-empty suffix that occurs nowhere
    else in it (it does not occur in the lemma without its last character),
    the stem computed by the suffix pass is exactly the lemma without that
    ending. *)
Theorem suffix_stem_exact_when_unique (lemma suffix : string) :
  suffix ≠ "" →
  Py.endswith lemma suffix = true →
  contains (but_last lemma) suffix = false →
  Py.replace lemma suffix "" None = spec_trailing_stem lemma suffix
  ∧ spec_trailing_stem lemma suffix +:+ suffix = lemma.
Proof.
  intros Hne Hends Hocc.
  destruct (suffix_stem_unique_occurrence lemma suffix Hne Hends Hocc)
    as [Hstem Hlemma].
  split; [exact Hstem|]. by rewrite <- Hlemma.
Qed.

Lemma suffix_stem_exact_when_unique_witness :
  "less" ≠ ""
  ∧ Py.endswith "careless" "less" = true
  ∧ contains (but_last "careless") "less" = false
  ∧ Py.replace "careless" "less" "" None = spec_trailing_stem "careless" "less"
  ∧ spec_trailing_stem "careless" "less" +:+ "less" = "careless".
Proof.
  split; [discriminate|]. split; [reflexivity|]. split; [reflexivity|].
  exact (suffix_stem_exact_when_unique "careless" "less"
           ltac:(discriminate) eq_refl eq_refl).
Defined.

(** X21.  With the suffix set of [main], in any iteration order: a lemma
    that ends with one of the three suffixes, in which that suffix occurs
    nowhere else, and whose remainder has more than two characters, gets
    has_affix = 1 with that suffix as affix, whatever the prefix set; the
    base fields record the remainder exactly when it is a vocabulary
    word. *)
Theorem main_suffix_commit (lemma suffix : string)
        (neg_prefix neg_suffix : list string) (vocab : gset string) :
  neg_suffix ≡ₚ neg_suffix_main →
  suffix ∈ neg_suffix →
  Py.endswith lemma suffix = true →
  contains (but_last lemma) suffix = false →
  2 < Py.len (spec_trailing_stem lemma suffix) →
  affix_features_of lemma neg_prefix neg_suffix vocab
  = if decide (spec_trailing_stem lemma suffix ∈ vocab)
    then {| has_affix_val := VInt 1; affix_val := suffix;
            base_is_word_val := VInt 1;
            base_val := spec_trailing_stem lemma suffix |}
    else {| has_affix_val := VInt 1; affix_val := suffix;
            base_is_word_val := VInt 0; base_val := "" |}.
Proof.
  intros Hperm Hin Hends Hocc Hlong.
  assert (Hmain : suffix ∈ neg_suffix_main) by (by rewrite <- Hperm).
  assert (Hne : suffix ≠ "").
  { intros ->. by apply (bool_decide_pack _), Is_true_true in Hmain. }
  assert (Hlemma : lemma ≠ "").
  { intros ->. unfold spec_trailing_stem in Hlong. simpl in Hlong. lia. }
  destruct (suffix_stem_unique_occurrence lemma suffix Hne Hends Hocc)
    as [Hstem _].
  assert (Hq : qualifies_suffix lemma suffix = true).
  { unfold qualifies_suffix. rewrite Hends, Hstem. simpl.
    by apply Nat.ltb_lt. }
  rewrite affix_features_of_find by done.
  pose proof (find_qualifies (qualifies_suffix lemma) neg_suffix) as Hfind.
  destruct (find (qualifies_suffix lemma) neg_suffix) as [y|].
  - destruct Hfind as [Hy Qy].
    apply andb_true_iff in Qy as [Ey _].
    assert (y = suffix) as ->.
    { apply (main_suffix_exclusive lemma); try done. by rewrite <- Hperm. }
    rewrite Hstem. unfold commit.
    case_bool_decide;
      [by rewrite decide_True by done | by rewrite decide_False by done].
  - apply (Forall_forall (λ s, qualifies_suffix lemma s = false))
      with (x := suffix) in Hfind; [congruence|done].
Qed.

Lemma main_suffix_commit_witness :
  ["lessly"; "less"; "lessness"] ≡ₚ neg_suffix_main
  ∧ "lessness" ∈ ["lessly"; "less"; "lessness"]
  ∧ Py.endswith "carelessness" "lessness" = true
  ∧ contains (but_last "carelessness") "lessness" = false
  ∧ 2 < Py.len (spec_trailing_stem "carelessness" "lessness")
  ∧ affix_features_of "carelessness" neg_prefix_main
      ["lessly"; "less"; "lessness"] {["care"]}
    = if decide (spec_trailing_stem "carelessness" "lessness"
                 ∈ ({["care"]} : gset string))
      then {| has_affix_val := VInt 1; affix_val := "lessness";
              base_is_word_val := VInt 1;
              base_val := spec_trailing_stem "carelessness" "lessness" |}
      else {| has_affix_val := VInt 1; affix_val := "lessness";
              base_is_word_val := VInt 0; base_val := "" |}.
Proof.
  assert (H1 : ["lessly"; "less"; "lessness"] ≡ₚ neg_suffix_main)
    by (unfold neg_suffix_main; solve_Permutation).
  assert (H2 : "lessness" ∈ ["lessly"; "less"; "lessness"])
    by (repeat constructor).
  assert (H5 : 2 < Py.len (spec_trailing_stem "carelessness" "lessness"))
    by (vm_compute; lia).
  split; [exact H1|]. split; [exact H2|]. split; [reflexivity|].
  split; [reflexivity|]. split; [exact H5|].
  exact (main_suffix_commit "carelessness" "lessness" neg_prefix_main
           ["lessly"; "less"; "lessness"] {["care"]} H1 H2 eq_refl eq_refl H5).
Defined.

Lemma fmap_filter_imap {B} (g : nat → input_row → feature_row)
      (h : feature_row → B) (h' : input_row → B) (l : list input_row) :
  (∀ i r, book (g i r) = in_book r) →
  (∀ i r, h (g i r) = h' r) →
  h <$> filter (λ row, book row ≠ "") (imap g l)
  = h' <$> filter (λ r, in_book r ≠ "") l.
Proof.
  revert g. induction l as [|x l IH]; intros g Hb Hh; [done|].
  rewrite imap_cons, !filter_cons, Hb.
  specialize (IH (g ∘ S) (λ i r, Hb (S i) r) (λ i r, Hh (S i) r)).
  destruct (decide (in_book x ≠ "")); [|done].
  rewrite !fmap_cons, Hh. by rewrite IH.
Qed.

(** X22.  The output keeps the input order: the rows of the output are, in
    order and one for one, the input rows with a non-empty book field, each
    with its book, sentence number, token number, POS tag and gold label
    unchanged and its token and lemma in lower case. *)
Theorem output_rows_in_input_order (input_data : list input_row)
        (neg_prefix neg_suffix : list string) (vocab : gset string) :
  ∃ output,
    write_features input_data neg_prefix neg_suffix vocab = Some output
    ∧ (λ row, (book row, sent_num row, token_num row, token row, lemma row,
               pos_tag row, gold_label row)) <$> output
      = (λ r, (in_book r, in_sent_num r, in_token_num r,
               Py.lower (in_token r), Py.lower (in_lemma r),
               in_pos_tag r, in_label r))
        <$> filter (λ r, in_book r ≠ "") input_data.
Proof.
  destruct (write_features_rows input_data neg_prefix neg_suffix vocab)
    as (pt & nt & pl & nl & _ & _ & Hout).
  eexists. split; [exact Hout|].
  by apply fmap_filter_imap.
Qed.

(** ** Suffix priority *)

Lemma replace_scan_skip_length (old : string) (k n : nat) (s : string) :
  Py.len (Py.replace_scan old "" k n s) ≤ Py.len s - k.
Proof.
  revert k n. induction s as [|c s IH]; intros k n; [simpl; lia|].
  destruct k as [|k].
  - pose proof (replace_scan_length old 0 n (String c s)). lia.
  - cbn [Py.replace_scan]. specialize (IH k n).
    unfold Py.len in *. simpl. lia.
Qed.

Lemma contains_empty (s : string) : contains s "" = true.
Proof. by destruct s. Qed.

Lemma contains_app_end (p x : string) : contains (p +:+ x) x = true.
Proof.
  induction p as [|c p IH].
  - change ("" +:+ x) with x.
    assert (String.prefix x x = true) as Hp.
    { rewrite <- (string_app_nil_r x) at 2. apply prefix_app_true. }
    destruct x; simpl in *; [done|]. by rewrite Hp.
  - change (String c p +:+ x) with (String c (p +:+ x)).
    cbn [contains]. rewrite IH. apply orb_true_r.
Qed.

(** Deleting the occurrences of a non-empty string that does occur removes
    at least its length. *)
Lemma replace_scan_removes_one (old : string) (n : nat) (s : string) :
  old ≠ "" → contains s old = true →
  Py.len (Py.replace_scan old "" 0 (S n) s) + Py.len old ≤ Py.len s.
Proof.
  intros Hne. induction s as [|c s IH]; intros H.
  - destruct old; [done|]. simpl in H. done.
  - cbn [Py.replace_scan].
    destruct (String.prefix old (String c s)) eqn:Hp.
    + change ("" +:+ ?x) with x.
      pose proof (replace_scan_skip_length old (Py.len old - 1) n s) as Hs.
      destruct (prefix_app _ _ Hp) as [t Ht].
      assert (Py.len old ≤ Py.len (String c s)) as Hle.
      { rewrite Ht. unfold Py.len. rewrite string_length_app. lia. }
      assert (0 < Py.len old) by (destruct old; [done|simpl; lia]).
      unfold Py.len in *. simpl in *. lia.
    + cbn [contains] in H. rewrite Hp in H. simpl in H.
      specialize (IH H). unfold Py.len in *. simpl. lia.
Qed.

(** The stem the suffix pass computes is never longer than the lemma without
    its ending. *)
Lemma code_stem_le_trailing_stem (lemma x : string) :
  Py.endswith lemma x = true →
  Py.len (Py.replace lemma x "" None) ≤ Py.len (spec_trailing_stem lemma x).
Proof.
  intros Hends. destruct (endswith_app _ _ Hends) as [p ->].
  assert (Hstem : spec_trailing_stem (p +:+ x) x = p).
  { unfold spec_trailing_stem, Py.len. rewrite string_length_app.
    replace (String.length p + String.length x - String.length x)
      with (String.length p) by lia.
    apply substring_prefix_app. }
  rewrite Hstem. unfold Py.replace. cbn [default].
  destruct x as [|a x].
  - rewrite replace_empty_id, string_app_nil_r. done.
  - pose proof (replace_scan_removes_one (String a x)
                  (Py.len (p +:+ String a x)) (p +:+ String a x)
                  ltac:(done) (contains_app_end p (String a x))) as H.
    pose proof (string_length_app p (String a x)) as Hl.
    unfold Py.len in *. lia.
Qed.

(** C5, as worded, fails twice.  "xyzab" ends with "b" and with "ab", both
    with a long enough stem, and the affix recorded is "ab", the first in
    iteration order, not "b".  "unlessless" ends with "less" and the lemma
    without that ending is "unless", but the stem the code computes is "un":
    the suffix pass records nothing and the prefix pass commits "un". *)
Lemma suffix_priority_counterexample :
  ¬ commits_that_suffix "xyzab" [] ["ab"; "b"] ∅ "b"
  ∧ get_affixal_and_base_features ["xyzab"] [] ["ab"; "b"] ∅
    = ([VInt 1], ["ab"], [VInt 0], [""])
  ∧ ¬ commits_that_suffix "unlessless" neg_prefix_main neg_suffix_main ∅
        "less"
  ∧ get_affixal_and_base_features ["unlessless"] neg_prefix_main
      neg_suffix_main ∅
    = ([VInt 1], ["un"], [VInt 0], [""]).
Proof.
  split; [|split; [vm_compute; reflexivity|split; [|vm_compute; reflexivity]]].
  - intros H. destruct H as (_ & Haffix & _).
    + by repeat constructor.
    + reflexivity.
    + vm_compute. lia.
    + vm_compute in Haffix. discriminate Haffix.
  - intros H. destruct H as (_ & Haffix & _).
    + by repeat constructor.
    + reflexivity.
    + vm_compute. lia.
    + vm_compute in Haffix. discriminate Haffix.
Qed.

(** C5, amended.  When the lemma ends with a suffix of the suffix set, the
    lemma without that ending is longer than 2, the suffix occurs in the
    lemma only as its ending, and no suffix earlier in iteration order also
    ends the lemma with a remainder longer than 2, the analyser commits
    through the suffix pass: has_affix is 1 and the affix is that suffix.
    The prefix pass is not run: the result is what the suffix loop left, and
    it is the same for every prefix set, also one with a prefix the lemma
    starts with. *)
Theorem suffix_priority_first_match (lemma : string)
        (neg_prefix before : list string) (suffix : string)
        (later : list string) (vocab : gset string) :
  Forall (λ x, Py.endswith lemma x = false
               ∨ Py.len (spec_trailing_stem lemma x) ≤ 2) before →
  Py.endswith lemma suffix = true →
  contains (but_last lemma) suffix = false →
  2 < Py.len (spec_trailing_stem lemma suffix) →
  let neg_suffix := before ++ suffix :: later in
  let f := affix_features_of lemma neg_prefix neg_suffix vocab in
  has_affix_val f = VInt 1
  ∧ affix_val f = suffix
  ∧ f = (if decide (spec_trailing_stem lemma suffix ∈ vocab)
         then {| has_affix_val := VInt 1; affix_val := suffix;
                 base_is_word_val := VInt 1;
                 base_val := spec_trailing_stem lemma suffix |}
         else {| has_affix_val := VInt 1; affix_val := suffix;
                 base_is_word_val := VInt 0; base_val := "" |})
  ∧ f = suffix_loop lemma vocab neg_suffix no_affix
  ∧ (∀ other_prefixes,
       affix_features_of lemma other_prefixes neg_suffix vocab = f)
  ∧ get_affixal_and_base_features [lemma] neg_prefix neg_suffix vocab
    = get_affixal_and_base_features [lemma] [] neg_suffix vocab.
Proof.
  intros Hbefore Hends Hocc Hlong neg_suffix f.
  assert (Hne : suffix ≠ "").
  { intros ->. by rewrite contains_empty in Hocc. }
  assert (Hlemma : lemma ≠ "").
  { intros ->. unfold spec_trailing_stem in Hlong. simpl in Hlong. lia. }
  destruct (suffix_stem_unique_occurrence lemma suffix Hne Hends Hocc)
    as [Hstem _].
  assert (Hq : qualifies_suffix lemma suffix = true).
  { unfold qualifies_suffix. rewrite Hends, Hstem. simpl.
    by apply Nat.ltb_lt. }
  assert (Hskip : Forall (λ x, qualifies_suffix lemma x = false) before).
  { eapply Forall_impl; [exact Hbefore|]. intros x [Hx|Hx].
    - unfold qualifies_suffix. by rewrite Hx.
    - unfold qualifies_suffix.
      destruct (Py.endswith lemma x) eqn:Ex; [|done]. simpl.
      pose proof (code_stem_le_trailing_stem lemma x Ex).
      apply Nat.ltb_ge. lia. }
  assert (Hrun : suffix_loop lemma vocab neg_suffix no_affix
                 = commit suffix (spec_trailing_stem lemma suffix) vocab
                     no_affix).
  { unfold neg_suffix.
    by rewrite (suffix_loop_skip _ _ _ _ _ Hskip), suffix_loop_cons, Hq,
      Hstem. }
  assert (Hall : ∀ prefixes,
    affix_features_of lemma prefixes neg_suffix vocab
    = commit suffix (spec_trailing_stem lemma suffix) vocab no_affix).
  { intros prefixes. rewrite affix_features_of_find by done.
    rewrite <- Hrun, suffix_loop_find.
    by destruct (find (qualifies_suffix lemma) neg_suffix) eqn:Hf;
      [|rewrite suffix_loop_find, Hf in Hrun;
        pose proof (commit_has_affix suffix
                      (spec_trailing_stem lemma suffix) vocab no_affix)
          as [Hh _]; rewrite <- Hrun in Hh]. }
  subst f. rewrite !get_affixal_and_base_features_map. simpl.
  rewrite !Hall, Hrun.
  destruct (commit_has_affix suffix (spec_trailing_stem lemma suffix) vocab
              no_affix) as [Hh Ha].
  repeat split; try done.
  unfold commit. case_bool_decide;
    [by rewrite decide_True by done | by rewrite decide_False by done].
Qed.

Lemma suffix_priority_first_match_witness :
  Forall (λ x, Py.endswith "unfearless" x = false
               ∨ Py.len (spec_trailing_stem "unfearless" x) ≤ 2)
         ["lessly"; "fearless"]
  ∧ Py.endswith "unfearless" "less" = true
  ∧ contains (but_last "unfearless") "less" = false
  ∧ 2 < Py.len (spec_trailing_stem "unfearless" "less")
  ∧ Py.startswith "unfearless" "un" = true
  ∧ affix_features_of "unfearless" neg_prefix_main
      (["lessly"; "fearless"] ++ "less" :: ["lessness"]) {["unfear"]}
    = {| has_affix_val := VInt 1; affix_val := "less";
         base_is_word_val := VInt 1; base_val := "unfear" |}.
Proof.
  assert (H1 : Forall (λ x, Py.endswith "unfearless" x = false
                            ∨ Py.len (spec_trailing_stem "unfearless" x) ≤ 2)
                 ["lessly"; "fearless"]).
  { constructor; [left; reflexivity|].
    constructor; [right; vm_compute; lia|constructor]. }
  assert (H4 : 2 < Py.len (spec_trailing_stem "unfearless" "less"))
    by (vm_compute; lia).
  split; [exact H1|]. split; [reflexivity|]. split; [reflexivity|].
  split; [exact H4|]. split; [reflexivity|].
  destruct (suffix_priority_first_match "unfearless" neg_prefix_main
              ["lessly"; "fearless"] "less" ["lessness"] {["unfear"]}
              H1 eq_refl eq_refl H4) as (_ & _ & Hf & _).
  exact Hf.
Defined.
